(** * Invoice engine of invoice-generator-saas: numbering, totals, status rules

    A shallow embedding of
      - [backend/utils/invoiceUtils.ts]  ([generateInvoiceNumber],
        [calculateInvoiceTotals]),
      - [backend/models/Invoice.ts]      (schema validators, unique indexes,
        the two [pre('save')] hooks),
      - [backend/controllers/invoiceController.ts] ([getAllInvoices],
        [createInvoice], [updateInvoice], [deleteInvoice],
        [duplicateInvoice]),
      - [backend/routes/invoices.ts]     (the request validators and the
        middleware of each route),
      - [backend/middleware/auth.ts]     ([checkInvoiceLimit]),
      - [frontend/src/utils/index.ts]    ([calculateInvoiceTotals],
        [truncateText], [formatPhoneNumber]).

    Conventions of the embedding.
      - A JavaScript [number] holding an amount or a rate is an exact rational
        ([Q]); binary64 rounding error is outside the model.  Fields of the
        result records are compared with [==] ([Qeq]).
      - A JavaScript [number] holding an invoice sequence is [JS.Num]: an exact
        integer or [NaN].
      - A string is a [string] of 8-bit characters.
      - A point in time is its millisecond timestamp ([Z]); a clock reading
        ([new Date()]) additionally carries the local year and month.
      - The invoice collection is a list of documents in insertion order.
      - One request reads the clock once: the readings that the generator
        and the status hook take during a request are the same [Date].
      - [populate] and PDF rendering play no part in numbering, totals or
        status and are left out; the user's [invoiceCount] is kept by the
        routes ([handle]), not by the controllers' definitions. *)

From Stdlib Require Import ZArith QArith Qround Qabs List String Ascii Bool Lia Arith.
From Stdlib Require Import DecimalString DecimalZ Permutation Lqa Sorted.
Import ListNotations.

Local Open Scope string_scope.
Local Open Scope Z_scope.

(** ** JavaScript primitives used by the invoice code *)

Module JS.

(** Integer-valued numbers as produced by [parseInt]. *)
Inductive Num : Type :=
| NaN
| Int (z : Z).

Definition add (a b : Num) : Num :=
  match a, b with
  | Int x, Int y => Int (x + y)
  | _, _ => NaN
  end.

(** [String(n)] / template interpolation of an integer-valued number. *)
Definition ToString (n : Num) : string :=
  match n with
  | NaN => "NaN"
  | Int z => NilEmpty.string_of_int (Z.to_int z)
  end.

(** [s.padStart(n, c)] for a one-character filler. *)
Fixpoint repeat_char (c : ascii) (n : nat) : string :=
  match n with
  | O => ""
  | S k => String c (repeat_char c k)
  end.

Definition padStart (s : string) (n : nat) (c : ascii) : string :=
  repeat_char c (n - String.length s) ++ s.

(** [s.split(sep)] for a one-character separator. *)
Fixpoint split (sep : ascii) (s : string) : list string :=
  match s with
  | "" => [""]
  | String c s' =>
      if Ascii.eqb c sep then "" :: split sep s'
      else match split sep s' with
           | h :: t => String c h :: t
           | [] => [String c ""]
           end
  end.

(** [parseInt(x)] without radix: leading white space is skipped, then an
    optional sign, then an optional [0x]/[0X] selecting radix 16; the longest
    run of digits is read; no digit at all gives [NaN]. *)
Definition isWhiteSpace (c : ascii) : bool :=
  let n := nat_of_ascii c in
  ((9 <=? n)%nat && (n <=? 13)%nat) || (n =? 32)%nat.

Fixpoint trimStart (s : string) : string :=
  match s with
  | String c s' => if isWhiteSpace c then trimStart s' else s
  | "" => ""
  end.

Definition digit_value (radix : Z) (c : ascii) : option Z :=
  let n := Z.of_nat (nat_of_ascii c) in
  let v := if (48 <=? n) && (n <=? 57) then Some (n - 48)
           else if (97 <=? n) && (n <=? 122) then Some (n - 87)
           else if (65 <=? n) && (n <=? 90) then Some (n - 55)
           else None in
  match v with
  | Some d => if d <? radix then Some d else None
  | None => None
  end.

Fixpoint parse_digits (radix : Z) (s : string) (acc : option Z) : option Z :=
  match s with
  | "" => acc
  | String c s' =>
      match digit_value radix c with
      | Some d =>
          parse_digits radix s'
            (Some (radix * match acc with Some a => a | None => 0 end + d))
      | None => acc
      end
  end.

Definition parseInt_string (s : string) : Num :=
  let s1 := trimStart s in
  let '(sign, s2) :=
    match s1 with
    | String "-"%char r => (-1, r)
    | String "+"%char r => (1, r)
    | _ => (1, s1)
    end in
  let '(radix, s3) :=
    match s2 with
    | String "0"%char (String "x"%char r) => (16, r)
    | String "0"%char (String "X"%char r) => (16, r)
    | _ => (10, s2)
    end in
  match parse_digits radix s3 None with
  | Some m => Int (sign * m)
  | None => NaN
  end.

(** The argument is first converted to a string; [undefined] (an array
    index past the end) becomes ["undefined"]. *)
Definition parseInt (x : option string) : Num :=
  parseInt_string (match x with Some s => s | None => "undefined" end).

(** [Math.round]: the nearest integer, a tie going towards +infinity. *)
Definition Math_round (x : Q) : Q := inject_Z (Qfloor (x + (1 # 2))%Q).

End JS.

(** ** Data model ([models/Invoice.ts]) *)

Definition ObjectId := nat.
Bind Scope nat_scope with ObjectId.

(** Millisecond timestamp of a stored [Date]. *)
Definition Time := Z.

(** A reading of the clock, [new Date()]. *)
Record Date : Type := mkDate {
  getTime : Time;
  getFullYear : Z;
  getMonth : Z
}.

Inductive Status : Type := draft | sent | paid | overdue | cancelled.

Definition Status_eqb (a b : Status) : bool :=
  match a, b with
  | draft, draft | sent, sent | paid, paid
  | overdue, overdue | cancelled, cancelled => true
  | _, _ => false
  end.

Inductive Template : Type := default | modern | minimal | professional.

Record InvoiceItem : Type := mkItem {
  description : string;
  quantity : Q;
  rate : Q;
  amount : Q
}.

Record Invoice : Type := mkInvoice {
  _id : ObjectId;
  userId : ObjectId;
  customerId : ObjectId;
  invoiceNumber : string;
  status : Status;
  items : list InvoiceItem;
  subtotal : Q;
  taxRate : Q;
  taxAmount : Q;
  discountRate : Q;
  discountAmount : Q;
  total : Q;
  currency : string;
  issueDate : Time;
  dueDate : Time;
  paidDate : option Time;
  notes : option string;
  terms : option string;
  template : Template;
  pdfPath : option string;
  createdAt : Time;
  updatedAt : Time
}.

(** The invoice collection. *)
Definition Collection := list Invoice.

(** ** Invoice number generator ([utils/invoiceUtils.ts]) *)

(** [Invoice.findOne(filter).sort({ invoiceNumber: -1 })]: among the matching
    documents, the one whose [invoiceNumber] is greatest in the binary string
    order. *)
Definition greater (best : option Invoice) (d : Invoice) : option Invoice :=
  match best with
  | None => Some d
  | Some b => if String.ltb (invoiceNumber b) (invoiceNumber d) then Some d else Some b
  end.

Definition findOne_sort_invoiceNumber_desc
    (filter : Invoice -> bool) (db : Collection) : option Invoice :=
  fold_left greater (List.filter filter db) None.

(** [`INV-${year}-${month}`] *)
Definition invoicePrefix (now : Date) : string :=
  let year := getFullYear now in
  let month := JS.padStart (JS.ToString (JS.Int (getMonth now + 1))) 2 "0" in
  "INV-" ++ JS.ToString (JS.Int year) ++ "-" ++ month.

(** The query [{ userId, invoiceNumber: { $regex: `^${prefix}` } }]: the
    prefix consists of letters, digits and dashes only, so the anchored
    regular expression is a starts-with test. *)
Definition latestInvoiceFilter (uid : ObjectId) (prefix : string) (d : Invoice) : bool :=
  (userId d =? uid)%nat && String.prefix prefix (invoiceNumber d).

Definition nextSequence (latestInvoice : option Invoice) : JS.Num :=
  match latestInvoice with
  | Some inv =>
      let lastSequence :=
        JS.parseInt (nth_error (JS.split "-" (invoiceNumber inv)) 3) in
      JS.add lastSequence (JS.Int 1)
  | None => JS.Int 1
  end.

(** Asynchronous operations either resolve with a value or reject with an
    error; [await] is the bind of this monad. *)
Inductive Error : Type :=
| ValidationError (path : string)
| DuplicateKeyError (index : string).

Inductive Promise (A : Type) : Type :=
| Resolved (a : A)
| Rejected (e : Error).
Arguments Resolved {A} a.
Arguments Rejected {A} e.

Definition await {A B : Type} (p : Promise A) (k : A -> Promise B) : Promise B :=
  match p with
  | Resolved a => k a
  | Rejected e => Rejected e
  end.

Notation "x <- p ;; k" := (await p (fun x => k))
  (at level 61, p at next level, right associativity).

Definition generateInvoiceNumber
    (db : Collection) (now : Date) (uid : ObjectId) : Promise string :=
  let prefix := invoicePrefix now in
  latestInvoice <-
    Resolved (findOne_sort_invoiceNumber_desc (latestInvoiceFilter uid prefix) db) ;;
  let sequence := nextSequence latestInvoice in
  Resolved (prefix ++ "-" ++ JS.padStart (JS.ToString sequence) 4 "0").

(** ** Totals calculator ([utils/invoiceUtils.ts]) *)

Module Totals.
Record t : Type := mk {
  subtotal : Q;
  taxAmount : Q;
  discountAmount : Q;
  total : Q
}.
End Totals.

(** [arr.reduce(cb, init)] where the callback receives the element by
    reference: it returns the new accumulator together with the element as it
    leaves it.  The second component is the array after the traversal. *)
Fixpoint reduce {A S : Type} (cb : S -> A -> S * A) (arr : list A) (init : S)
  : S * list A :=
  match arr with
  | [] => (init, [])
  | x :: xs =>
      let '(s1, x') := cb init x in
      let '(s2, xs') := reduce cb xs s1 in
      (s2, x' :: xs')
  end.

(** [Math.round(x * 100) / 100] *)
Definition round2 (x : Q) : Q := (JS.Math_round (x * 100) / 100)%Q.

(** A parameter with a default value: [undefined] selects the default. *)
Definition orDefault {A : Type} (x : option A) (d : A) : A :=
  match x with Some v => v | None => d end.

(** The function together with the item array as it is after the call. *)
Definition calculateInvoiceTotals_run
    (items : list InvoiceItem) (taxRate discountRate : option Q)
  : Totals.t * list InvoiceItem :=
  let taxRate := orDefault taxRate 0%Q in
  let discountRate := orDefault discountRate 0%Q in
  let '(subtotal, items') :=
    reduce (fun sum item =>
              let amount := (quantity item * rate item)%Q in
              ((sum + amount)%Q, item)) items 0%Q in
  let taxAmount := ((subtotal * taxRate) / 100)%Q in
  let discountAmount := ((subtotal * discountRate) / 100)%Q in
  let total := (subtotal + taxAmount - discountAmount)%Q in
  (Totals.mk (round2 subtotal) (round2 taxAmount)
             (round2 discountAmount) (round2 total),
   items').

Definition calculateInvoiceTotals
    (items : list InvoiceItem) (taxRate discountRate : option Q) : Totals.t :=
  fst (calculateInvoiceTotals_run items taxRate discountRate).

(** ** Save hooks and schema ([models/Invoice.ts]) *)

Definition set_amount (item : InvoiceItem) (a : Q) : InvoiceItem :=
  mkItem (description item) (quantity item) (rate item) a.

Definition set_status (this : Invoice) (s : Status) : Invoice :=
  mkInvoice (_id this) (userId this) (customerId this) (invoiceNumber this) s
    (items this) (subtotal this) (taxRate this) (taxAmount this)
    (discountRate this) (discountAmount this) (total this) (currency this)
    (issueDate this) (dueDate this) (paidDate this) (notes this) (terms this)
    (template this) (pdfPath this) (createdAt this) (updatedAt this).

Definition set_paidDate (this : Invoice) (p : option Time) : Invoice :=
  mkInvoice (_id this) (userId this) (customerId this) (invoiceNumber this)
    (status this) (items this) (subtotal this) (taxRate this) (taxAmount this)
    (discountRate this) (discountAmount this) (total this) (currency this)
    (issueDate this) (dueDate this) p (notes this) (terms this)
    (template this) (pdfPath this) (createdAt this) (updatedAt this).

Definition set_updatedAt (this : Invoice) (t : Time) : Invoice :=
  mkInvoice (_id this) (userId this) (customerId this) (invoiceNumber this)
    (status this) (items this) (subtotal this) (taxRate this) (taxAmount this)
    (discountRate this) (discountAmount this) (total this) (currency this)
    (issueDate this) (dueDate this) (paidDate this) (notes this) (terms this)
    (template this) (pdfPath this) (createdAt this) t.

(** First hook: "Calculate amounts before saving". *)
Definition pre_save_totals (this : Invoice) : Invoice :=
  let '(subtotal, items') :=
    reduce (fun sum item =>
              let item' := set_amount item (quantity item * rate item)%Q in
              ((sum + amount item')%Q, item')) (items this) 0%Q in
  let taxAmount := ((subtotal * taxRate this) / 100)%Q in
  let discountAmount := ((subtotal * discountRate this) / 100)%Q in
  let total := (subtotal + taxAmount - discountAmount)%Q in
  mkInvoice (_id this) (userId this) (customerId this) (invoiceNumber this)
    (status this) items' subtotal (taxRate this) taxAmount
    (discountRate this) discountAmount total (currency this)
    (issueDate this) (dueDate this) (paidDate this) (notes this) (terms this)
    (template this) (pdfPath this) (createdAt this) (updatedAt this).

(** A [Date] object is truthy; [null] and [undefined] are not. *)
Definition truthy {A : Type} (x : option A) : bool :=
  match x with Some _ => true | None => false end.

(** Second hook: "Update status based on dates". *)
Definition pre_save_status (now : Date) (this : Invoice) : Invoice :=
  if truthy (paidDate this) && negb (Status_eqb (status this) paid) then
    set_status this paid
  else if negb (truthy (paidDate this)) && Status_eqb (status this) paid then
    set_paidDate this None
  else if (dueDate this <? getTime now)
          && Status_eqb (status this) sent
          && negb (truthy (paidDate this)) then
    set_status this overdue
  else this.

(** Schema validators; they run before the two hooks above.  The document is
    validated as a whole. *)
Definition validItem (item : InvoiceItem) : bool :=
  negb (String.eqb (description item) "")
  && (String.length (description item) <=? 200)%nat
  && Qle_bool (1 # 100) (quantity item)
  && Qle_bool 0 (rate item)
  && Qle_bool 0 (amount item).

Definition maxlength (n : nat) (s : option string) : bool :=
  match s with
  | Some v => (String.length v <=? n)%nat
  | None => true
  end.

Definition validate (doc : Invoice) : bool :=
  negb (String.eqb (invoiceNumber doc) "")
  && (0 <? List.length (items doc))%nat
  && forallb validItem (items doc)
  && Qle_bool 0 (subtotal doc)
  && Qle_bool 0 (taxRate doc) && Qle_bool (taxRate doc) 100
  && Qle_bool 0 (taxAmount doc)
  && Qle_bool 0 (discountRate doc) && Qle_bool (discountRate doc) 100
  && Qle_bool 0 (discountAmount doc)
  && Qle_bool 0 (total doc)
  && negb (String.eqb (currency doc) "")
  && (String.length (currency doc) <=? 3)%nat
  && maxlength 1000 (notes doc)
  && maxlength 1000 (terms doc).

(** Unique indexes of the collection: [unique: true] on [invoiceNumber], and
    [index({ userId: 1, invoiceNumber: 1 }, { unique: true })].  An index is
    given by the test that two documents have the same key.  When a write
    violates both, the server names one of them in its error; [save] below
    names the first in the order of declaration. *)
Record UniqueIndex : Type := mkIndex {
  index_name : string;
  same_key : Invoice -> Invoice -> bool
}.

Definition uniqueIndexes : list UniqueIndex :=
  [ mkIndex "invoiceNumber_1"
      (fun a b => String.eqb (invoiceNumber a) (invoiceNumber b));
    mkIndex "userId_1_invoiceNumber_1"
      (fun a b => (userId a =? userId b)%nat
                  && String.eqb (invoiceNumber a) (invoiceNumber b)) ].

(** Some other document of the collection has the key of [doc] in index [ix]. *)
Definition conflicts (db : Collection) (doc : Invoice) (ix : UniqueIndex) : bool :=
  existsb (fun d => negb (_id d =? _id doc)%nat && same_key ix d doc) db.

(** Writing a document: a stored document with the same [_id] is replaced,
    otherwise the document is appended. *)
Definition isStored (db : Collection) (doc : Invoice) : bool :=
  existsb (fun d => (_id d =? _id doc)%nat) db.

Definition replace_by (doc : Invoice) (d : Invoice) : Invoice :=
  if (_id d =? _id doc)%nat then doc else d.

Definition write (db : Collection) (doc : Invoice) : Collection :=
  if isStored db doc
  then map (replace_by doc) db
  else (db ++ [doc])%list.

(** [doc.save()]: validation, the hooks in the order of their registration,
    the [timestamps] option, then the write under the unique indexes.  The
    result is the collection and the document as saved. *)
Definition save (db : Collection) (now : Date) (doc : Invoice)
  : Promise (Collection * Invoice) :=
  if negb (validate doc) then Rejected (ValidationError "Invoice validation failed")
  else
    let doc := pre_save_totals doc in
    let doc := pre_save_status now doc in
    let doc := set_updatedAt doc (getTime now) in
    match find (conflicts db doc) uniqueIndexes with
    | Some ix => Rejected (DuplicateKeyError (index_name ix))
    | None => Resolved (write db doc, doc)
    end.

(** [new Invoice(...)] draws a fresh [_id]. *)
Definition fresh_id (db : Collection) : ObjectId :=
  S (fold_right Nat.max O (map _id db)).

(** ** Controllers ([controllers/invoiceController.ts]) *)

(** [res.status(code).json({ message, invoice })] *)
Record Response : Type := mkResponse {
  code : nat;
  message : string;
  invoice : option Invoice
}.

(** The customer collection, reduced to what the controllers query:
    [(_id, userId)]. *)
Definition Customers := list (ObjectId * ObjectId).

Definition Customer_findOne (cs : Customers) (id uid : ObjectId) : bool :=
  existsb (fun c => (fst c =? id)%nat && (snd c =? uid)%nat) cs.

(** [Invoice.findOne({ _id, userId })] *)
Definition Invoice_findOne (db : Collection) (id uid : ObjectId) : option Invoice :=
  find (fun d => (_id d =? id)%nat && (userId d =? uid)%nat) db.

(** [items.map(item => ({ ...item, amount: item.quantity * item.rate }))] *)
Definition withAmounts (items : list InvoiceItem) : list InvoiceItem :=
  map (fun item => set_amount item (quantity item * rate item)%Q) items.

(** [.isNumeric()] tests the number as it prints, and accepts decimal
    digits with an optional sign and point, no exponent.  A number prints
    without exponent when it is zero or its magnitude is at least 0.000001
    and below 1e21; [minPlain] is the binary64 number written 0.000001, the
    least that prints so. *)
Definition minPlain : Q := 4722366482869645 # 4722366482869645213696.

Definition isNumeric (x : Q) : bool :=
  Qeq_bool x 0
  || (Qle_bool minPlain (Qabs x)
      && negb (Qle_bool 1000000000000000000000 (Qabs x))).

(** [.optional().isNumeric().custom(value => value >= 0 && value <= 100)] *)
Definition inRange (x : option Q) : bool :=
  match x with
  | Some v => isNumeric v && Qle_bool 0 v && Qle_bool v 100
  | None => true
  end.

(** The item rules shared by [invoiceValidation] and
    [invoiceUpdateValidation] (routes). *)
Definition validBodyItem (item : InvoiceItem) : bool :=
  negb (String.eqb (description item) "")
  && (String.length (description item) <=? 200)%nat
  && isNumeric (quantity item)
  && negb (Qle_bool (quantity item) 0)
  && isNumeric (rate item)
  && Qle_bool 0 (rate item).

Definition validCurrency (c : option string) : bool :=
  match c with
  | Some v => (String.length v =? 3)%nat
  | None => true
  end.

Module CreateBody.
Record t : Type := mk {
  customerId : ObjectId;
  items : list InvoiceItem;
  dueDate : Time;
  taxRate : option Q;
  discountRate : option Q;
  currency : option string;
  notes : option string;
  terms : option string
}.

(** [invoiceValidation] *)
Definition invoiceValidation (b : t) : bool :=
  (1 <=? List.length (items b))%nat
  && forallb validBodyItem (items b)
  && inRange (taxRate b)
  && inRange (discountRate b)
  && validCurrency (currency b)
  && maxlength 1000 (notes b)
  && maxlength 1000 (terms b).
End CreateBody.

Definition createInvoice
    (db : Collection) (customers : Customers) (now : Date)
    (user : option ObjectId) (body : CreateBody.t) : Collection * Response :=
  match user with
  | None => (db, mkResponse 401 "User not authenticated" None)
  | Some uid =>
      if negb (CreateBody.invoiceValidation body) then
        (db, mkResponse 400 "Validation errors" None)
      else
        let customerId := CreateBody.customerId body in
        let items := CreateBody.items body in
        let taxRate := orDefault (CreateBody.taxRate body) 0%Q in
        let discountRate := orDefault (CreateBody.discountRate body) 0%Q in
        let currency := orDefault (CreateBody.currency body) "USD" in
        if negb (Customer_findOne customers customerId uid) then
          (db, mkResponse 404 "Customer not found" None)
        else
          let totals := calculateInvoiceTotals items (Some taxRate) (Some discountRate) in
          let saved :=
            invoiceNumber <- generateInvoiceNumber db now uid ;;
            let invoice :=
              mkInvoice (fresh_id db) uid customerId invoiceNumber draft
                (withAmounts items)
                (Totals.subtotal totals) taxRate (Totals.taxAmount totals)
                discountRate (Totals.discountAmount totals) (Totals.total totals)
                currency (getTime now) (CreateBody.dueDate body) None
                (CreateBody.notes body) (CreateBody.terms body)
                default None (getTime now) (getTime now) in
            save db now invoice in
          match saved with
          | Resolved (db', invoice) =>
              (db', mkResponse 201 "Invoice created successfully" (Some invoice))
          | Rejected _ => (db, mkResponse 500 "Failed to create invoice" None)
          end
  end.

Module UpdateBody.
Record t : Type := mk {
  customerId : option ObjectId;
  items : option (list InvoiceItem);
  dueDate : option Time;
  taxRate : option Q;
  discountRate : option Q;
  currency : option string;
  notes : option string;
  terms : option string;
  status : option Status
}.

(** [invoiceUpdateValidation] *)
Definition invoiceUpdateValidation (b : t) : bool :=
  match items b with
  | Some its => (1 <=? List.length its)%nat && forallb validBodyItem its
  | None => true
  end
  && inRange (taxRate b)
  && inRange (discountRate b)
  && validCurrency (currency b)
  && maxlength 1000 (notes b)
  && maxlength 1000 (terms b).
End UpdateBody.

(** [x || y] on numbers: [undefined] and [0] are falsy. *)
Definition orElse (x : option Q) (y : Q) : Q :=
  match x with
  | Some v => if Qeq_bool v 0 then y else v
  | None => y
  end.

(** The status block of [updateInvoice]: the new status and paid date. *)
Definition applyStatus (now : Date) (st : option Status) (invoice : Invoice)
  : Status * option Time :=
  match st with
  | Some s =>
      if Status_eqb s paid && negb (truthy (paidDate invoice))
      then (s, Some (getTime now))
      else if negb (Status_eqb s paid) then (s, None)
      else (s, paidDate invoice)
  | None => (status invoice, paidDate invoice)
  end.

Definition updateInvoice
    (db : Collection) (customers : Customers) (now : Date)
    (user : option ObjectId) (id : ObjectId) (body : UpdateBody.t)
  : Collection * Response :=
  match user with
  | None => (db, mkResponse 401 "User not authenticated" None)
  | Some uid =>
      if negb (UpdateBody.invoiceUpdateValidation body) then
        (db, mkResponse 400 "Validation errors" None)
      else
        match Invoice_findOne db id uid with
        | None => (db, mkResponse 404 "Invoice not found" None)
        | Some invoice =>
            let changesCustomer :=
              match UpdateBody.customerId body with
              | Some c => negb (c =? customerId invoice)%nat
              | None => false
              end in
            if changesCustomer
               && negb (Customer_findOne customers
                          (orDefault (UpdateBody.customerId body) O) uid)
            then (db, mkResponse 404 "Customer not found" None)
            else
              let customerId' :=
                if changesCustomer
                then orDefault (UpdateBody.customerId body) O
                else customerId invoice in
              let '(items', totals') :=
                match UpdateBody.items body with
                | Some its =>
                    (withAmounts its,
                     calculateInvoiceTotals its
                       (Some (orElse (UpdateBody.taxRate body) (taxRate invoice)))
                       (Some (orElse (UpdateBody.discountRate body)
                                     (discountRate invoice))))
                | None =>
                    (items invoice,
                     Totals.mk (subtotal invoice) (taxAmount invoice)
                       (discountAmount invoice) (total invoice))
                end in
              let currency' :=
                match UpdateBody.currency body with
                | Some c => if String.eqb c "" then currency invoice else c
                | None => currency invoice
                end in
              let '(status', paidDate') :=
                applyStatus now (UpdateBody.status body) invoice in
              let invoice' :=
                mkInvoice (_id invoice) (userId invoice) customerId'
                  (invoiceNumber invoice) status' items'
                  (Totals.subtotal totals')
                  (orDefault (UpdateBody.taxRate body) (taxRate invoice))
                  (Totals.taxAmount totals')
                  (orDefault (UpdateBody.discountRate body) (discountRate invoice))
                  (Totals.discountAmount totals') (Totals.total totals')
                  currency' (issueDate invoice)
                  (orDefault (UpdateBody.dueDate body) (dueDate invoice))
                  paidDate'
                  (match UpdateBody.notes body with
                   | Some n => Some n | None => notes invoice end)
                  (match UpdateBody.terms body with
                   | Some n => Some n | None => terms invoice end)
                  (template invoice) (pdfPath invoice)
                  (createdAt invoice) (updatedAt invoice) in
              match save db now invoice' with
              | Resolved (db', saved) =>
                  (db', mkResponse 200 "Invoice updated successfully" (Some saved))
              | Rejected _ => (db, mkResponse 500 "Failed to update invoice" None)
              end
        end
  end.

Definition duplicateInvoice
    (db : Collection) (now : Date) (user : option ObjectId) (id : ObjectId)
  : Collection * Response :=
  match user with
  | None => (db, mkResponse 401 "User not authenticated" None)
  | Some uid =>
      match Invoice_findOne db id uid with
      | None => (db, mkResponse 404 "Invoice not found" None)
      | Some originalInvoice =>
          let saved :=
            invoiceNumber <- generateInvoiceNumber db now uid ;;
            let newInvoice :=
              mkInvoice (fresh_id db) (userId originalInvoice)
                (customerId originalInvoice) invoiceNumber draft
                (items originalInvoice) (subtotal originalInvoice)
                (taxRate originalInvoice) (taxAmount originalInvoice)
                (discountRate originalInvoice) (discountAmount originalInvoice)
                (total originalInvoice) (currency originalInvoice)
                (issueDate originalInvoice) (dueDate originalInvoice) None
                (notes originalInvoice) (terms originalInvoice)
                (template originalInvoice) (pdfPath originalInvoice)
                (getTime now) (getTime now) in
            save db now newInvoice in
          match saved with
          | Resolved (db', newInvoice) =>
              (db', mkResponse 201 "Invoice duplicated successfully" (Some newInvoice))
          | Rejected _ => (db, mkResponse 500 "Failed to duplicate invoice" None)
          end
      end
  end.

(** [Invoice.findOneAndDelete({ _id, userId })]: the first match is removed. *)
Fixpoint findOneAndDelete (db : Collection) (id uid : ObjectId)
  : Collection * option Invoice :=
  match db with
  | [] => ([], None)
  | d :: rest =>
      if (_id d =? id)%nat && (userId d =? uid)%nat then (rest, Some d)
      else let '(rest', found) := findOneAndDelete rest id uid in
           (d :: rest', found)
  end.

Definition deleteInvoice
    (db : Collection) (user : option ObjectId) (id : ObjectId)
  : Collection * Response :=
  match user with
  | None => (db, mkResponse 401 "User not authenticated" None)
  | Some uid =>
      match findOneAndDelete db id uid with
      | (_, None) => (db, mkResponse 404 "Invoice not found" None)
      | (db', Some _) => (db', mkResponse 200 "Invoice deleted successfully" None)
      end
  end.

(** ** Notions used to state the properties *)

(** Collections the application can build: every write to the invoice
    collection is a [save] or a delete. *)
Inductive reachable : Collection -> Prop :=
| reachable_empty : reachable []
| reachable_save db now doc db' saved :
    reachable db ->
    save db now doc = Resolved (db', saved) ->
    reachable db'
| reachable_delete db id uid :
    reachable db ->
    reachable (fst (findOneAndDelete db id uid)).

(** A clock reading as [new Date()] gives it: a non-negative year and a
    month index from 0 to 11. *)
Definition validDate (now : Date) : Prop :=
  0 <= getFullYear now /\ 0 <= getMonth now <= 11.

(** The sequence segment [String(k).padStart(4, '0')] and the invoice number
    carrying it. *)
Definition sequenceText (k : Z) : string :=
  JS.padStart (JS.ToString (JS.Int k)) 4 "0".

Definition numberOf (prefix : string) (k : Z) : string :=
  prefix ++ "-" ++ sequenceText k.




(** Rounding to two decimals, a half going away from zero: [r] is a whole
    number of hundredths nearest to [x], and when [x] lies exactly between
    two of them, [r] is the one of larger magnitude. *)
Definition roundedHalfAwayFromZero (x r : Q) : Prop :=
  exists n : Z,
    (r == inject_Z n / 100)%Q
    /\ (Qabs (inject_Z n - x * 100) <= 1 # 2)%Q
    /\ ((Qabs (inject_Z n - x * 100) == 1 # 2)%Q ->
        (Qabs (x * 100) < Qabs (inject_Z n))%Q).

(** The raw (unrounded) amounts of the totals derivation. *)
Definition rawSubtotal (items : list InvoiceItem) : Q :=
  fold_left (fun sum item => (sum + quantity item * rate item)%Q) items 0%Q.

Definition rawTaxAmount (items : list InvoiceItem) (taxRate : Q) : Q :=
  (rawSubtotal items * taxRate / 100)%Q.

Definition rawDiscountAmount (items : list InvoiceItem) (discountRate : Q) : Q :=
  (rawSubtotal items * discountRate / 100)%Q.

Definition rawTotal (items : list InvoiceItem) (taxRate discountRate : Q) : Q :=
  (rawSubtotal items + rawTaxAmount items taxRate
   - rawDiscountAmount items discountRate)%Q.

(** The subtotal the save hook computes from an item array. *)
Definition hookSubtotal (items : list InvoiceItem) : Q :=
  fst (reduce (fun sum item =>
                 let item' := set_amount item (quantity item * rate item)%Q in
                 ((sum + amount item')%Q, item')) items 0%Q).

(** A document whose derived fields are what the save hook computes from its
    items and rates. *)
Definition normalised (d : Invoice) : Prop :=
  items d = withAmounts (items d)
  /\ subtotal d = hookSubtotal (items d)
  /\ taxAmount d = ((subtotal d * taxRate d) / 100)%Q
  /\ discountAmount d = ((subtotal d * discountRate d) / 100)%Q
  /\ total d = (subtotal d + taxAmount d - discountAmount d)%Q.

(** The business fields that a duplicate takes over from its original. *)
Record BusinessFields : Type := mkBusinessFields {
  bf_customerId : ObjectId;
  bf_items : list InvoiceItem;
  bf_subtotal : Q;
  bf_taxRate : Q;
  bf_taxAmount : Q;
  bf_discountRate : Q;
  bf_discountAmount : Q;
  bf_total : Q;
  bf_currency : string;
  bf_dueDate : Time;
  bf_notes : option string;
  bf_terms : option string
}.

Definition businessFields (d : Invoice) : BusinessFields :=
  mkBusinessFields (customerId d) (items d) (subtotal d) (taxRate d)
    (taxAmount d) (discountRate d) (discountAmount d) (total d) (currency d)
    (dueDate d) (notes d) (terms d).

(** No dash occurs in the string. *)
Fixpoint noDash (s : string) : bool :=
  match s with
  | "" => true
  | String c s' => negb (Ascii.eqb c "-") && noDash s'
  end.

Definition Num_eqb (a b : JS.Num) : bool :=
  match a, b with
  | JS.NaN, JS.NaN => true
  | JS.Int x, JS.Int y => x =? y
  | _, _ => false
  end.

(** The month segment [String(m + 1).padStart(2, '0')] of a prefix. *)
Definition monthText (m : Z) : string :=
  JS.padStart (JS.ToString (JS.Int (m + 1))) 2 "0".

(** The integers [0], ..., [n - 1]. *)
Definition upto (n : Z) : list Z := map Z.of_nat (seq 0 (Z.to_nat n)).

(** ** Concrete data used in the examples *)

Definition september2025 : Date := mkDate 1757000000000 2025 8.

Definition exampleItems : list InvoiceItem :=
  [ mkItem "Website Development" 1 2500 0;
    mkItem "SEO Optimization" 10 150 0 ].

(** A document holding [status = paid] and no [paidDate]. *)
Definition paidWithoutDate : Invoice :=
  mkInvoice 1 1 7 "INV-2025-09-0001" paid
    [mkItem "Consulting" 1 100 100] 100 0 0 0 0 100 "USD"
    1756000000000 1759000000000 None None None default None
    1756000000000 1756000000000.

(** A [sent] document whose due date lies before [september2025]. *)
Definition sentPastDue : Invoice :=
  mkInvoice 1 1 7 "INV-2025-08-0001" sent
    [mkItem "Consulting" 1 100 100] 100 0 0 0 0 100 "USD"
    1754000000000 1756000000000 None None None default None
    1754000000000 1754000000000.

(** The shape [PREFIX-SEQ]: the number is the prefix, a dash, and a non-empty
    run of decimal digits. *)
Definition isDigit (c : ascii) : bool :=
  let n := nat_of_ascii c in ((48 <=? n) && (n <=? 57))%nat.

Fixpoint allDigits (s : string) : bool :=
  match s with
  | "" => true
  | String c s' => isDigit c && allDigits s'
  end.

Definition matchesShape (prefix number : string) : bool :=
  let p := prefix ++ "-" in
  let seq := String.substring (String.length p)
               (String.length number - String.length p) number in
  String.prefix p number && negb (String.eqb seq "") && allDigits seq.

(** Latest invoices of owner 1 whose numbers do not have the shape. *)
Definition trailingGarbage : Invoice :=
  mkInvoice 1 1 7 "INV-2025-09-12ab" draft
    [mkItem "Consulting" 1 100 100] 100 0 0 0 0 100 "USD"
    1756000000000 1759000000000 None None None default None
    1756000000000 1756000000000.

Definition noSequence : Invoice :=
  mkInvoice 1 1 7 "INV-2025-09" draft
    [mkItem "Consulting" 1 100 100] 100 0 0 0 0 100 "USD"
    1756000000000 1759000000000 None None None default None
    1756000000000 1756000000000.

(** The first invoice of owner 1 in September 2025 as a new document, the
    collection after saving it into the empty collection, and a new document
    of owner 2 proposed under the same number. *)
Definition owner1First : Invoice :=
  mkInvoice 1 1 7 "INV-2025-09-0001" draft
    exampleItems 4000 (825 # 100) 330 5 200 4130 "USD"
    1757000000000 1759000000000 None None None default None
    1757000000000 1757000000000.

Definition savedDocument (doc : Invoice) : Invoice :=
  match save [] september2025 doc with
  | Resolved (_, saved) => saved
  | Rejected _ => doc
  end.

Definition collectionOf (doc : Invoice) : Collection :=
  match save [] september2025 doc with
  | Resolved (db, _) => db
  | Rejected _ => []
  end.

Definition owner2First : Invoice :=
  mkInvoice 2 2 8 "INV-2025-09-0001" draft
    [mkItem "Design" 2 300 600] 600 0 0 0 0 600 "USD"
    1757000000000 1759000000000 None None None default None
    1757000000000 1757000000000.

(** A create request whose tax amount has more than two decimals:
    one item of quantity 1 at rate 1, tax 8.25 %. *)
Definition unroundedBody : CreateBody.t :=
  CreateBody.mk 7 [mkItem "Consulting" 1 1 0] 1759000000000
    (Some (825 # 100)) None None None None.

(** An invoice of owner 1 carrying the last four-digit number of September
    2025, and two create requests of that owner in that month. *)
Definition at9999 : Invoice :=
  mkInvoice 1 1 7 "INV-2025-09-9999" draft
    [mkItem "Consulting" 1 100 100] 100 0 0 0 0 100 "USD"
    1757000000000 1759000000000 None None None default None
    1757000000000 1757000000000.

Definition exampleBody : CreateBody.t :=
  CreateBody.mk 7 exampleItems 1759000000000 (Some (825 # 100)) (Some 5%Q)
    None None None.






(** A create request whose only item has quantity 0.005. *)
Definition tinyQuantityBody : CreateBody.t :=
  CreateBody.mk 7 [mkItem "Consulting" (1 # 200) 100 0] 1759000000000
    None None None None None.

(** An update request that only sets the status. *)
Definition statusOnly (s : Status) : UpdateBody.t :=
  UpdateBody.mk None None None None None None None None (Some s).

(** ** Listing invoices ([getAllInvoices]) *)

(** Arithmetic on integer-valued numbers; [NaN] propagates. *)
Definition Num_sub (a b : JS.Num) : JS.Num :=
  match a, b with
  | JS.Int x, JS.Int y => JS.Int (x - y)
  | _, _ => JS.NaN
  end.

Definition Num_mul (a b : JS.Num) : JS.Num :=
  match a, b with
  | JS.Int x, JS.Int y => JS.Int (x * y)
  | _, _ => JS.NaN
  end.

(** Results of a division that are rounded up: an integer, [Infinity] or
    [NaN]. *)
Inductive PageCount : Type :=
| PagesNaN
| PagesInfinity
| Pages (z : Z).

(** [Math.ceil(total / limitNum)] for a document count [total]. *)
Definition ceilDiv (total : Z) (limitNum : JS.Num) : PageCount :=
  match limitNum with
  | JS.NaN => PagesNaN
  | JS.Int l =>
      if l =? 0 then (if total =? 0 then PagesNaN else PagesInfinity)
      else Pages (- ((- total) / l))
  end.

(** [pageNum < pages] and [pageNum > 1]; a comparison with [NaN] is false. *)
Definition Num_lt_pages (p : JS.Num) (pages : PageCount) : bool :=
  match p, pages with
  | JS.Int x, Pages y => x <? y
  | JS.Int _, PagesInfinity => true
  | _, _ => false
  end.

Definition Num_gt (p : JS.Num) (z : Z) : bool :=
  match p with
  | JS.Int x => z <? x
  | JS.NaN => false
  end.

Definition Status_name (s : Status) : string :=
  match s with
  | draft => "draft"
  | sent => "sent"
  | paid => "paid"
  | overdue => "overdue"
  | cancelled => "cancelled"
  end.

Module Query.
Record t : Type := mk {
  page : option string;
  limit : option string;
  status : option string;
  search : option string
}.
End Query.

(** A non-empty string is truthy. *)
Definition nonEmpty (s : option string) : bool :=
  match s with
  | Some v => negb (String.eqb v "")
  | None => false
  end.

(** [parseInt(page)] with the default [page = 1], [parseInt(limit)] with the
    default [limit = 10]. *)
Definition pageNumOf (q : Query.t) : JS.Num :=
  match Query.page q with
  | Some s => JS.parseInt (Some s)
  | None => JS.Int 1
  end.

Definition limitNumOf (q : Query.t) : JS.Num :=
  match Query.limit q with
  | Some s => JS.parseInt (Some s)
  | None => JS.Int 10
  end.

(** The filter [{ userId, status?, $or? }].  The server's regular-expression
    engine is a parameter: [regex pattern] is the case-insensitive matcher of
    a pattern, or [None] when the server refuses the pattern. *)
Definition Regex := string -> option (string -> bool).

Definition statusMatches (q : Query.t) (d : Invoice) : bool :=
  match Query.status q with
  | Some s =>
      if negb (String.eqb s "") && negb (String.eqb s "all")
      then String.eqb (Status_name (status d)) s
      else true
  | None => true
  end.

Definition searchMatches (matcher : string -> bool) (d : Invoice) : bool :=
  matcher (invoiceNumber d)
  || match notes d with Some n => matcher n | None => false end.

Definition listFilter (regex : Regex) (uid : ObjectId) (q : Query.t)
  : option (Invoice -> bool) :=
  if nonEmpty (Query.search q) then
    match regex (orDefault (Query.search q) "") with
    | Some matcher =>
        Some (fun d => (userId d =? uid)%nat && statusMatches q d
                       && searchMatches matcher d)
    | None => None
    end
  else Some (fun d => (userId d =? uid)%nat && statusMatches q d).

(** [.sort({ createdAt: -1 })]: newest first.  The server leaves the order
    of documents created at the same time open; here they keep their order
    in the collection. *)
Fixpoint insertNewestFirst (d : Invoice) (l : list Invoice) : list Invoice :=
  match l with
  | [] => [d]
  | x :: xs =>
      if createdAt x <=? createdAt d then d :: l
      else x :: insertNewestFirst d xs
  end.

Definition sortNewestFirst (l : list Invoice) : list Invoice :=
  fold_right insertNewestFirst [] l.

(** [.skip(skip).limit(limitNum)] on the sorted matches is the driver's; it
    is a parameter, and [skipsAndLimits] says what it does for a
    non-negative skip and a positive limit. *)
Definition Cursor := JS.Num -> JS.Num -> list Invoice -> Promise (list Invoice).

Definition skipsAndLimits (cursor : Cursor) : Prop :=
  forall (s n : Z) (l : list Invoice),
    0 <= s -> 1 <= n ->
    cursor (JS.Int s) (JS.Int n) l
    = Resolved (firstn (Z.to_nat n) (skipn (Z.to_nat s) l)).

(** The aggregation [$match { userId }], [$group] by status with the count
    and the sum of [total]: one group per status that occurs. *)
Record StatusGroup : Type := mkGroup {
  group_id : Status;
  group_count : Z;
  group_totalAmount : Q
}.

Definition groupOf (uid : ObjectId) (db : Collection) (s : Status)
  : list StatusGroup :=
  let members :=
    filter (fun d => (userId d =? uid)%nat && Status_eqb (status d) s) db in
  match members with
  | [] => []
  | _ => [mkGroup s (Z.of_nat (List.length members))
            (fold_left (fun sum d => (sum + total d)%Q) members 0%Q)]
  end.

Definition aggregateByStatus (uid : ObjectId) (db : Collection) : list StatusGroup :=
  flat_map (groupOf uid db) [draft; sent; paid; overdue; cancelled].

Module Summary.
Record t : Type := mk {
  total : Z;
  draft : Z;
  sent : Z;
  paid : Z;
  overdue : Z;
  cancelled : option Z;
  totalRevenue : Q;
  paidRevenue : Q
}.
End Summary.

(** One step of [stats.forEach]: the count is added to [total] and stored
    under the status; the amount is added to [totalRevenue], and to
    [paidRevenue] for the group [paid].  The key [cancelled] is not among the
    initial keys and appears with the first cancelled group. *)
Definition addGroup (summary : Summary.t) (stat : StatusGroup) : Summary.t :=
  let n := group_count stat in
  let isPaid := Status_eqb (group_id stat) paid in
  Summary.mk
    (Summary.total summary + n)
    (if Status_eqb (group_id stat) draft then n else Summary.draft summary)
    (if Status_eqb (group_id stat) sent then n else Summary.sent summary)
    (if isPaid then n else Summary.paid summary)
    (if Status_eqb (group_id stat) overdue then n else Summary.overdue summary)
    (if Status_eqb (group_id stat) cancelled then Some n
     else Summary.cancelled summary)
    (Summary.totalRevenue summary + group_totalAmount stat)%Q
    (if isPaid then (Summary.paidRevenue summary + group_totalAmount stat)%Q
     else Summary.paidRevenue summary).

Definition summarize (stats : list StatusGroup) : Summary.t :=
  fold_left addGroup stats (Summary.mk 0 0 0 0 0 None 0%Q 0%Q).

Record Pagination : Type := mkPagination {
  current : JS.Num;
  pages : PageCount;
  pagination_total : Z;
  hasNext : bool;
  hasPrev : bool
}.

Inductive ListResponse : Type :=
| ListOk (invoices : list Invoice) (pagination : Pagination) (summary : Summary.t)
| ListError (code : nat) (message : string).

Definition getAllInvoices
    (regex : Regex) (cursor : Cursor)
    (db : Collection) (user : option ObjectId) (q : Query.t) : ListResponse :=
  match user with
  | None => ListError 401 "User not authenticated"
  | Some uid =>
      let pageNum := pageNumOf q in
      let limitNum := limitNumOf q in
      let skip := Num_mul (Num_sub pageNum (JS.Int 1)) limitNum in
      match listFilter regex uid q with
      | None => ListError 500 "Failed to fetch invoices"
      | Some matches =>
          match cursor skip limitNum (sortNewestFirst (filter matches db)) with
          | Rejected _ => ListError 500 "Failed to fetch invoices"
          | Resolved invoices =>
              let total := Z.of_nat (List.length (filter matches db)) in
              let stats := aggregateByStatus uid db in
              let summary := summarize stats in
              ListOk invoices
                (mkPagination pageNum (ceilDiv total limitNum) total
                   (Num_lt_pages pageNum (ceilDiv total limitNum))
                   (Num_gt pageNum 1))
                summary
          end
      end
  end.

(** A cursor for the examples: skip and limit as above, rejection otherwise. *)
Definition exampleCursor : Cursor :=
  fun skip limitNum l =>
    match skip, limitNum with
    | JS.Int s, JS.Int n =>
        if (0 <=? s) && (1 <=? n)
        then Resolved (firstn (Z.to_nat n) (skipn (Z.to_nat s) l))
        else Rejected (ValidationError "skip, limit")
    | _, _ => Rejected (ValidationError "skip, limit")
    end.

Definition noRegex : Regex := fun _ => None.

(** The caller's invoices, those in one status, and sums of totals. *)
Definition ownedBy (uid : ObjectId) (db : Collection) : list Invoice :=
  filter (fun d => (userId d =? uid)%nat) db.

Definition inStatus (uid : ObjectId) (db : Collection) (s : Status) : list Invoice :=
  filter (fun d => (userId d =? uid)%nat && Status_eqb (status d) s) db.

Definition sumTotals (l : list Invoice) : Q :=
  fold_left (fun sum d => (sum + total d)%Q) l 0%Q.

(** Newest first. *)
Definition notOlder (a b : Invoice) : Prop := createdAt b <= createdAt a.

(** Three invoices of owner 1 created one after the other. *)
Definition threeInvoices : Collection :=
  fst (createInvoice
         (fst (createInvoice (collectionOf owner1First) [(7, 1)%nat]
                 september2025 (Some 1%nat) exampleBody))
         [(7, 1)%nat] (mkDate 1757100000000 2025 8) (Some 1%nat) exampleBody).

Definition secondPageOfTwo : Query.t :=
  Query.mk (Some "2") (Some "2") None None.



(** ** The invoice quota ([middleware/auth.ts], [models/User.ts], routes) *)

Inductive Plan : Type := free | pro | business.

(** The user document, reduced to what the quota reads and writes. *)
Record User : Type := mkUser {
  user_id : ObjectId;
  plan : Plan;
  invoiceCount : Z;
  maxInvoices : Z
}.

Definition Users := list User.

(** A middleware calls [next()] or answers. *)
Inductive Middleware : Type :=
| Next
| Respond (code : nat) (message : string).

Definition checkInvoiceLimit (user : option User) : Middleware :=
  match user with
  | None => Respond 401 "Authentication required"
  | Some u =>
      match plan u with
      | pro | business => Next
      | free =>
          if maxInvoices u <=? invoiceCount u
          then Respond 403
                 "Invoice limit reached. Upgrade to Pro for unlimited invoices."
          else Next
      end
  end.

(** [User.findById(decoded.userId)] *)
Definition User_findById (users : Users) (uid : ObjectId) : option User :=
  find (fun u => (user_id u =? uid)%nat) users.

(** [User.findByIdAndUpdate(_id, { $inc: { invoiceCount: delta } })] *)
Definition incInvoiceCount (users : Users) (uid : ObjectId) (delta : Z) : Users :=
  map (fun u => if (user_id u =? uid)%nat
                then mkUser (user_id u) (plan u) (invoiceCount u + delta)
                       (maxInvoices u)
                else u) users.

(** The invoice routes with their middleware, on the users and the invoices.
    [uid] is the user id of the verified token; [authenticate] loads that
    user.  The controllers' updates of [invoiceCount], which [createInvoice],
    [duplicateInvoice] and [deleteInvoice] above leave out, are made here. *)
Inductive Request : Type :=
| PostInvoice (uid : ObjectId) (now : Date) (body : CreateBody.t)
| PutInvoice (uid : ObjectId) (now : Date) (id : ObjectId) (body : UpdateBody.t)
| DeleteInvoice (uid : ObjectId) (id : ObjectId)
| PostDuplicate (uid : ObjectId) (now : Date) (id : ObjectId).

Definition counting (users : Users) (uid : ObjectId) (success : nat) (delta : Z)
    (out : Collection * Response) : (Users * Collection) * nat :=
  let '(db', res) := out in
  if (code res =? success)%nat
  then ((incInvoiceCount users uid delta, db'), code res)
  else ((users, db'), code res).

Definition handle (customers : Customers) (st : Users * Collection) (r : Request)
  : (Users * Collection) * nat :=
  let '(users, db) := st in
  let authenticated uid k :=
    match User_findById users uid with
    | None => (st, 401%nat)
    | Some u => k u
    end in
  let limited u k :=
    match checkInvoiceLimit (Some u) with
    | Respond code _ => (st, code)
    | Next => k
    end in
  match r with
  | PostInvoice uid now body =>
      authenticated uid (fun u =>
        limited u
          (counting users uid 201 1
             (createInvoice db customers now (Some uid) body)))
  | PostDuplicate uid now id =>
      authenticated uid (fun u =>
        limited u
          (counting users uid 201 1 (duplicateInvoice db now (Some uid) id)))
  | DeleteInvoice uid id =>
      authenticated uid (fun u =>
        counting users uid 200 (-1) (deleteInvoice db (Some uid) id))
  | PutInvoice uid now id body =>
      authenticated uid (fun u =>
        let '(db', res) := updateInvoice db customers now (Some uid) id body in
        ((users, db'), code res))
  end.

Definition run (customers : Customers) (st : Users * Collection)
    (requests : list Request) : Users * Collection :=
  fold_left (fun st r => fst (handle customers st r)) requests st.

(** Every user's [invoiceCount] is the number of invoices the user owns. *)
Definition counted (st : Users * Collection) : Prop :=
  reachable (snd st)
  /\ forall u, In u (fst st) ->
       invoiceCount u = Z.of_nat (List.length (ownedBy (user_id u) (snd st))).

(** A free user with a quota of one invoice, and two create requests. *)
Definition freeUser : User := mkUser 1 free 0 1.

Definition twoPosts : list Request :=
  [ PostInvoice 1 september2025 exampleBody;
    PostInvoice 1 september2025 exampleBody ].

(** No free user's counter is above the quota, and user ids are distinct. *)
Definition withinQuota (users : Users) : Prop :=
  NoDup (map user_id users)
  /\ forall u, In u users -> plan u = free -> invoiceCount u <= maxInvoices u.

(** A free user whose counter has reached the quota. *)
Definition usedUpUser : User := mkUser 1 free 5 5.

(** ** Frontend utilities ([frontend/src/utils/index.ts]) *)

Module Frontend.

(** The totals the invoice form shows.  Items are any objects with a
    [quantity] and a [rate]. *)
Definition calculateInvoiceTotals
    (items : list InvoiceItem) (taxRate discountRate : option Q) : Totals.t :=
  let taxRate := orDefault taxRate 0%Q in
  let discountRate := orDefault discountRate 0%Q in
  let subtotal :=
    fst (reduce (fun sum item => ((sum + quantity item * rate item)%Q, item))
           items 0%Q) in
  let taxAmount := ((subtotal * taxRate) / 100)%Q in
  let discountAmount := ((subtotal * discountRate) / 100)%Q in
  let total := (subtotal + taxAmount - discountAmount)%Q in
  Totals.mk (round2 subtotal) (round2 taxAmount)
            (round2 discountAmount) (round2 total).

(** [text.substr(0, len)] for an integer [len]: nothing when [len] is not
    positive, the whole text when [len] exceeds its length. *)
Definition substr0 (text : string) (len : Z) : string :=
  substring 0 (Z.to_nat len) text.

Definition truncateText (text : string) (maxLength : Z) : string :=
  if Z.of_nat (String.length text) <=? maxLength then text
  else substr0 text maxLength ++ "...".

(** [phone.replace(/\D/g, '')] *)
Fixpoint removeNonDigits (s : string) : string :=
  match s with
  | "" => ""
  | String c s' =>
      if isDigit c then String c (removeNonDigits s') else removeNonDigits s'
  end.

(** [cleaned.match(/^(\d{3})(\d{3})(\d{4})$/)]: the three groups. *)
Definition matchPhone (cleaned : string) : option (string * string * string) :=
  if ((String.length cleaned =? 10)%nat && allDigits cleaned)%bool
  then Some (substring 0 3 cleaned, substring 3 3 cleaned, substring 6 4 cleaned)
  else None.

Definition formatPhoneNumber (phone : string) : string :=
  let cleaned := removeNonDigits phone in
  match matchPhone cleaned with
  | Some (g1, g2, g3) => "(" ++ g1 ++ ") " ++ g2 ++ "-" ++ g3
  | None => phone
  end.

End Frontend.


(** * Properties *)

(** Boolean conjunctions of validators, as hypotheses and as goals. *)
Ltac split_andb H :=
  repeat (apply Bool.andb_true_iff in H; destruct H as [H ?]).

Ltac andb_goal := repeat (apply Bool.andb_true_iff; split).

Ltac to_Qle :=
  repeat match goal with
         | H : Qle_bool _ _ = true |- _ => apply Qle_bool_iff in H
         end.

(** ** Totals calculator *)

Lemma reduce_readonly {A S : Type} (f : S -> A -> S) (arr : list A) (init : S) :
  reduce (fun s x => (f s x, x)) arr init = (fold_left f arr init, arr).
Proof.
  revert init; induction arr as [|x xs IH]; intros init; simpl.
  - reflexivity.
  - rewrite IH. reflexivity.
Qed.

Lemma calculateInvoiceTotals_run_eq items taxRate discountRate :
  calculateInvoiceTotals_run items taxRate discountRate =
  (let t := orDefault taxRate 0%Q in
   let d := orDefault discountRate 0%Q in
   Totals.mk (round2 (rawSubtotal items)) (round2 (rawTaxAmount items t))
             (round2 (rawDiscountAmount items d)) (round2 (rawTotal items t d)),
   items).
Proof.
  unfold calculateInvoiceTotals_run.
  rewrite (reduce_readonly (fun sum item => (sum + quantity item * rate item)%Q)).
  reflexivity.
Qed.

(** C10. The totals calculator is deterministic and leaves its inputs alone:
    the item array after a call is the array before it, and a second call on
    the array the first one leaves returns the same result. *)
Theorem calculateInvoiceTotals_deterministic_no_mutation :
  forall (items : list InvoiceItem) (taxRate discountRate : option Q),
    snd (calculateInvoiceTotals_run items taxRate discountRate) = items
    /\ fst (calculateInvoiceTotals_run
              (snd (calculateInvoiceTotals_run items taxRate discountRate))
              taxRate discountRate)
       = fst (calculateInvoiceTotals_run items taxRate discountRate).
Proof.
  intros items t d.
  rewrite !calculateInvoiceTotals_run_eq; simpl.
  split; reflexivity.
Qed.

(** By contrast the save hook writes [amount] into every item it visits. *)
Lemma pre_save_totals_items (this : Invoice) :
  items (pre_save_totals this) = withAmounts (items this).
Proof.
  unfold pre_save_totals.
  generalize 0%Q as init.
  intros init.
  destruct (reduce _ (items this) init) as [s its] eqn:E; simpl.
  revert init s its E.
  induction (items this) as [|x xs IH]; simpl; intros init s its E.
  - inversion E; reflexivity.
  - destruct (reduce _ xs _) as [s2 xs'] eqn:E2.
    inversion E; subst. f_equal. eapply IH; eassumption.
Qed.

(** C9. The worked example: one item at 2500 and ten at 150, tax 8.25 %,
    discount 5 %, give subtotal 4000.00, discount 200.00, tax 330.00 and
    total 4130.00. *)
Theorem calculateInvoiceTotals_example :
  let r := calculateInvoiceTotals exampleItems (Some (825 # 100)) (Some 5%Q) in
  (Totals.subtotal r == 4000)%Q
  /\ (Totals.discountAmount r == 200)%Q
  /\ (Totals.taxAmount r == 330)%Q
  /\ (Totals.total r == 4130)%Q.
Proof.
  vm_compute. repeat split; reflexivity.
Qed.

(** ** Save-time status rules *)

Lemma Status_eqb_eq (a b : Status) : Status_eqb a b = true <-> a = b.
Proof. destruct a, b; simpl; split; intros H; congruence. Qed.

Lemma Status_eqb_refl (a : Status) : Status_eqb a a = true.
Proof. destruct a; reflexivity. Qed.

(** The first rule: a paid date forces [paid]. *)
Lemma pre_save_status_paidDate_forces_paid (now : Date) (this : Invoice) (t : Time) :
  paidDate this = Some t ->
  status (pre_save_status now this) = paid
  /\ paidDate (pre_save_status now this) = Some t.
Proof.
  intros Hp. unfold pre_save_status. rewrite Hp; simpl.
  destruct (Status_eqb (status this) paid) eqn:E; simpl.
  - apply Status_eqb_eq in E. rewrite Bool.andb_false_r. simpl. auto.
  - auto.
Qed.

(** The totals hook touches neither the status nor the dates. *)
Lemma pre_save_totals_status (this : Invoice) :
  status (pre_save_totals this) = status this
  /\ paidDate (pre_save_totals this) = paidDate this
  /\ dueDate (pre_save_totals this) = dueDate this.
Proof.
  unfold pre_save_totals.
  destruct (reduce _ (items this) 0%Q); simpl; auto.
Qed.

(** What [save] stores, when it stores. *)
Lemma save_resolved (db db' : Collection) (now : Date) (doc saved : Invoice) :
  save db now doc = Resolved (db', saved) ->
  validate doc = true
  /\ saved = set_updatedAt (pre_save_status now (pre_save_totals doc)) (getTime now)
  /\ find (conflicts db saved) uniqueIndexes = None
  /\ db' = write db saved.
Proof.
  unfold save. destruct (validate doc); cbn [negb]; [|discriminate].
  match goal with
  | |- context [find ?f ?l] => destruct (find f l) eqn:F
  end; [discriminate|].
  intros H; inversion H; subst. auto.
Qed.

(** C3 (the code departs from the claim).  The second status rule tests
    for [status = paid] without a paid date and then assigns [undefined] to
    the paid date, which is already absent: the document is saved with
    [status = paid] and no [paidDate]. *)
Theorem save_keeps_paid_without_paidDate :
  paidDate paidWithoutDate = None
  /\ status paidWithoutDate = paid
  /\ status (pre_save_status september2025 paidWithoutDate) = paid
  /\ paidDate (pre_save_status september2025 paidWithoutDate) = None
  /\ exists saved,
       save [] september2025 paidWithoutDate = Resolved ([saved], saved)
       /\ status saved = paid /\ paidDate saved = None.
Proof.
  repeat split; try reflexivity.
  eexists. split; [vm_compute; reflexivity|]. split; reflexivity.
Qed.

(** The status block of [updateInvoice] keeps [paid] and the paid date in
    step whenever the request carries a status. *)
Lemma applyStatus_consistent (now : Date) (s : Status) (invoice : Invoice) :
  let '(st, pd) := applyStatus now (Some s) invoice in
  st = s /\ (st = paid <-> pd <> None).
Proof.
  unfold applyStatus.
  destruct (Status_eqb s paid) eqn:E; simpl.
  - apply Status_eqb_eq in E; subst.
    destruct (paidDate invoice) eqn:P; simpl; rewrite ?P;
      (split; [reflexivity|split; intros; congruence]).
  - split; [reflexivity|]. split; intros H.
    + subst. discriminate.
    + congruence.
Qed.

(** C7. A [sent] invoice without paid date whose due date is before the
    current time leaves the status rules as [overdue], and is stored as
    [overdue] when the save goes through; and the rules move an invoice to
    [overdue] only from [sent], without paid date and past due.  The rules
    are tried in the order paid-forcing, paid-clearing, overdue. *)
Theorem pre_save_status_overdue :
  forall (now : Date) (this : Invoice),
    (status this = sent -> paidDate this = None -> dueDate this < getTime now ->
     status (pre_save_status now this) = overdue
     /\ forall db db' saved,
          save db now this = Resolved (db', saved) -> status saved = overdue)
    /\ (status (pre_save_status now this) = overdue ->
        status this <> overdue ->
        status this = sent /\ paidDate this = None /\ dueDate this < getTime now).
Proof.
  assert (forall now this,
             status this = sent -> paidDate this = None ->
             dueDate this < getTime now ->
             status (pre_save_status now this) = overdue) as Hfwd.
  { intros now this Hs Hp Hd. unfold pre_save_status. rewrite Hs, Hp; simpl.
    apply Z.ltb_lt in Hd. rewrite Hd. reflexivity. }
  intros now this. split.
  - intros Hs Hp Hd. split; [apply Hfwd; assumption|].
    intros db db' saved Hsave. apply save_resolved in Hsave.
    destruct Hsave as (_ & -> & _). cbn [set_updatedAt status].
    destruct (pre_save_totals_status this) as (Es & Ep & Ed).
    apply Hfwd; congruence.
  - unfold pre_save_status.
    destruct (paidDate this) as [t|] eqn:P; simpl.
    + destruct (Status_eqb (status this) paid) eqn:E; simpl.
      * rewrite Bool.andb_false_r. simpl. intros H1 H2; contradiction.
      * intros H; discriminate.
    + destruct (Status_eqb (status this) paid) eqn:E; simpl.
      * apply Status_eqb_eq in E. intros H; simpl in H. congruence.
      * destruct (dueDate this <? getTime now) eqn:D; simpl.
        -- destruct (Status_eqb (status this) sent) eqn:S1; simpl.
           ++ apply Status_eqb_eq in S1. apply Z.ltb_lt in D. auto.
           ++ intros H1 H2; contradiction.
        -- intros H1 H2; contradiction.
Qed.

Lemma pre_save_status_overdue_witness :
  status (pre_save_status september2025 sentPastDue) = overdue.
Proof.
  refine (proj1 (proj1 (pre_save_status_overdue september2025 sentPastDue)
                         _ _ _));
    [reflexivity | reflexivity | vm_compute; reflexivity].
Defined.

(** ** Strings *)

Lemma length_append (a b : string) :
  String.length (a ++ b) = (String.length a + String.length b)%nat.
Proof. induction a; simpl; auto. Qed.

Lemma append_assoc (a b c : string) : (a ++ b) ++ c = a ++ (b ++ c).
Proof. induction a; simpl; congruence. Qed.

Lemma prefix_append (a b : string) : String.prefix a (a ++ b) = true.
Proof.
  induction a as [|c a IH]; simpl.
  - destruct b; reflexivity.
  - destruct (ascii_dec c c); [assumption | congruence].
Qed.

Lemma prefix_trans_append (a b s : string) :
  String.prefix (a ++ b) s = true -> String.prefix a s = true.
Proof.
  revert s; induction a as [|c a IH]; intros s H.
  - destruct s; reflexivity.
  - destruct s as [|c' s]; simpl in *; [discriminate|].
    destruct (ascii_dec c c'); [apply IH; assumption | discriminate].
Qed.

Lemma length_repeat_char (c : ascii) (n : nat) :
  String.length (JS.repeat_char c n) = n.
Proof. induction n; simpl; auto. Qed.

Lemma length_padStart (s : string) (n : nat) (c : ascii) :
  (n <= String.length (JS.padStart s n c))%nat.
Proof.
  unfold JS.padStart. rewrite length_append, length_repeat_char. lia.
Qed.

(** ** Invoice number generator *)

Lemma filter_none {A : Type} (f : A -> bool) (l : list A) :
  (forall x, In x l -> f x = false) -> filter f l = [].
Proof.
  induction l as [|x xs IH]; simpl; intros H; [reflexivity|].
  rewrite (H x (or_introl eq_refl)). apply IH. intros y Hy. apply H. now right.
Qed.

Lemma generateInvoiceNumber_eq (db : Collection) (now : Date) (uid : ObjectId) :
  generateInvoiceNumber db now uid =
  Resolved
    (invoicePrefix now ++ "-" ++
     JS.padStart
       (JS.ToString
          (nextSequence
             (findOne_sort_invoiceNumber_desc
                (latestInvoiceFilter uid (invoicePrefix now)) db))) 4 "0").
Proof. reflexivity. Qed.

(** No invoice of the owner under the month's prefix: the sequence is 1. *)
Lemma generate_without_latest (db : Collection) (now : Date) (uid : ObjectId) :
  (forall d, In d db -> userId d = uid ->
             String.prefix (invoicePrefix now) (invoiceNumber d) = false) ->
  generateInvoiceNumber db now uid = Resolved (invoicePrefix now ++ "-0001").
Proof.
  intros H. rewrite generateInvoiceNumber_eq.
  unfold findOne_sort_invoiceNumber_desc. rewrite filter_none.
  - reflexivity.
  - intros d Hd. unfold latestInvoiceFilter.
    destruct (Nat.eqb_spec (userId d) uid) as [E|E]; simpl; [|reflexivity].
    apply H; assumption.
Qed.

(** C6. In a year-month for which the owner holds no invoice carrying the
    month's prefix, the generator returns sequence 1, whatever else the
    collection holds: invoices of the owner under other prefixes and
    invoices of other owners. *)
Theorem generateInvoiceNumber_resets_per_owner_and_month :
  forall (db : Collection) (now : Date) (uid : ObjectId),
    (forall d, In d db -> userId d = uid ->
               String.prefix (invoicePrefix now) (invoiceNumber d) = false) ->
    generateInvoiceNumber db now uid = Resolved (numberOf (invoicePrefix now) 1).
Proof.
  intros db now uid H. apply generate_without_latest. exact H.
Qed.

Lemma generateInvoiceNumber_resets_witness :
  generateInvoiceNumber [sentPastDue; owner2First] september2025 1
  = Resolved "INV-2025-09-0001".
Proof.
  apply (generateInvoiceNumber_resets_per_owner_and_month
           [sentPastDue; owner2First] september2025 1).
  intros d [<-|[<-|[]]] Hu.
  - vm_compute. reflexivity.
  - discriminate Hu.
Defined.

(** C2 (counterexample).  With a latest number whose trailing segment is
    [12ab], or with no trailing segment at all, the generator raises nothing:
    it resolves with a number built from the leading digits, respectively
    with [NaN] as sequence. *)
Lemma generateInvoiceNumber_malformed_not_rejected :
  matchesShape "INV-2025-09" (invoiceNumber trailingGarbage) = false
  /\ generateInvoiceNumber [trailingGarbage] september2025 1
     = Resolved "INV-2025-09-0013"
  /\ matchesShape "INV-2025-09" (invoiceNumber noSequence) = false
  /\ generateInvoiceNumber [noSequence] september2025 1
     = Resolved "INV-2025-09-0NaN"
  /\ ~ (forall db now uid inv,
          findOne_sort_invoiceNumber_desc
            (latestInvoiceFilter uid (invoicePrefix now)) db = Some inv ->
          matchesShape (invoicePrefix now) (invoiceNumber inv) = false ->
          exists e, generateInvoiceNumber db now uid = Rejected e).
Proof.
  repeat split; try (vm_compute; reflexivity).
  intros H.
  destruct (H [trailingGarbage] september2025 1%nat trailingGarbage)
    as [e He]; try (vm_compute; reflexivity).
  discriminate He.
Qed.

(** C2 (as the code has it).  The generator has no failure path of its own:
    for every collection, well-formed or not, it resolves with the month's
    prefix, a dash, and a sequence text of at least four characters. *)
Theorem generateInvoiceNumber_always_resolves :
  forall (db : Collection) (now : Date) (uid : ObjectId),
    exists text : string,
      generateInvoiceNumber db now uid = Resolved (invoicePrefix now ++ "-" ++ text)
      /\ (4 <= String.length text)%nat
      /\ forall e, generateInvoiceNumber db now uid <> Rejected e.
Proof.
  intros db now uid. rewrite generateInvoiceNumber_eq.
  eexists. split; [reflexivity|]. split.
  - apply length_padStart.
  - intros e H; discriminate H.
Qed.

(** ** Persistence: what [save] keeps and what the unique indexes reject *)

Lemma pre_save_totals_key (this : Invoice) :
  _id (pre_save_totals this) = _id this
  /\ userId (pre_save_totals this) = userId this
  /\ invoiceNumber (pre_save_totals this) = invoiceNumber this.
Proof.
  unfold pre_save_totals. destruct (reduce _ (items this) 0%Q); simpl; auto.
Qed.

Lemma pre_save_status_key (now : Date) (this : Invoice) :
  _id (pre_save_status now this) = _id this
  /\ userId (pre_save_status now this) = userId this
  /\ invoiceNumber (pre_save_status now this) = invoiceNumber this.
Proof.
  unfold pre_save_status.
  repeat match goal with
         | |- context [if ?b then _ else _] => destruct b
         end; simpl; auto.
Qed.

Lemma saved_key (now : Date) (doc : Invoice) :
  let saved := set_updatedAt (pre_save_status now (pre_save_totals doc)) (getTime now) in
  _id saved = _id doc /\ userId saved = userId doc
  /\ invoiceNumber saved = invoiceNumber doc.
Proof.
  simpl.
  destruct (pre_save_status_key now (pre_save_totals doc)) as (A & B & C).
  destruct (pre_save_totals_key doc) as (A' & B' & C').
  repeat split; congruence.
Qed.

(** A stored document with another [_id] and the same number makes [save]
    fail, whoever owns the two documents; a document that passes validation
    fails on the index on [invoiceNumber] alone. *)
Lemma save_rejects_same_number (db : Collection) (now : Date) (doc d : Invoice) :
  In d db -> _id d <> _id doc -> invoiceNumber d = invoiceNumber doc ->
  exists e, save db now doc = Rejected e
            /\ (validate doc = true -> e = DuplicateKeyError "invoiceNumber_1").
Proof.
  intros Hin Hid Hnum. unfold save.
  destruct (validate doc); cbn [negb];
    [|eexists; split; [reflexivity | discriminate]].
  destruct (saved_key now doc) as (A & _ & C). cbv zeta in A, C.
  set (saved := set_updatedAt _ _) in *.
  assert (Hc : conflicts db saved
                 (mkIndex "invoiceNumber_1"
                    (fun a b => String.eqb (invoiceNumber a) (invoiceNumber b)))
               = true).
  { unfold conflicts. apply existsb_exists. exists d. split; [assumption|].
    cbn [same_key]. rewrite A, C, Hnum, String.eqb_refl.
    destruct (Nat.eqb_spec (_id d) (_id doc)); [contradiction|reflexivity]. }
  unfold uniqueIndexes. cbn [find]. rewrite Hc.
  eexists; split; reflexivity.
Qed.

Lemma no_conflict_numbers (db : Collection) (saved : Invoice) :
  find (conflicts db saved) uniqueIndexes = None ->
  forall d, In d db -> _id d <> _id saved ->
            invoiceNumber d <> invoiceNumber saved.
Proof.
  unfold uniqueIndexes. cbn [find].
  destruct (conflicts db saved _) eqn:C1; [discriminate|]. intros _.
  intros d Hin Hid Hnum.
  assert (conflicts db saved
            (mkIndex "invoiceNumber_1"
               (fun a b => String.eqb (invoiceNumber a) (invoiceNumber b)))
          = true) as H; [|congruence].
  unfold conflicts. apply existsb_exists. exists d. split; [assumption|].
  cbn [same_key]. rewrite Hnum, String.eqb_refl.
  destruct (Nat.eqb_spec (_id d) (_id saved)); [contradiction|reflexivity].
Qed.

Lemma isStored_iff (db : Collection) (doc : Invoice) :
  isStored db doc = true <-> In (_id doc) (map _id db).
Proof.
  unfold isStored. rewrite existsb_exists, in_map_iff. split.
  - intros (d & Hin & E). apply Nat.eqb_eq in E. exists d. auto.
  - intros (d & E & Hin). exists d. split; [assumption|]. now apply Nat.eqb_eq.
Qed.

Lemma map_replace_ids (doc : Invoice) (db : Collection) :
  map _id (map (replace_by doc) db) = map _id db.
Proof.
  induction db as [|x xs IH]; simpl; [reflexivity|]. rewrite IH. f_equal.
  unfold replace_by. destruct (Nat.eqb_spec (_id x) (_id doc)); congruence.
Qed.

Lemma in_map_replace (doc : Invoice) (db : Collection) (y : Invoice) :
  In y (map (replace_by doc) db) ->
  (y = doc /\ In (_id doc) (map _id db)) \/ (In y db /\ _id y <> _id doc).
Proof.
  rewrite in_map_iff. intros (x & E & Hin). unfold replace_by in E.
  destruct (Nat.eqb_spec (_id x) (_id doc)) as [Hx|Hx]; subst; auto.
  left. split; [reflexivity|]. rewrite <- Hx. now apply in_map.
Qed.

Lemma map_replace_numbers (doc : Invoice) (db : Collection) :
  NoDup (map invoiceNumber db) ->
  (forall d, In d db -> _id d <> _id doc -> invoiceNumber d <> invoiceNumber doc) ->
  NoDup (map _id db) ->
  NoDup (map invoiceNumber (map (replace_by doc) db)).
Proof.
  induction db as [|x xs IH]; simpl; intros Hn Hc Hi; [constructor|].
  inversion Hn as [|? ? Hx Hxs]; subst. inversion Hi as [|? ? Hix Hixs]; subst.
  constructor.
  - rewrite in_map_iff. intros (y & Ey & Hy).
    apply in_map_replace in Hy. unfold replace_by in Ey.
    destruct (Nat.eqb_spec (_id x) (_id doc)) as [E|E].
    + destruct Hy as [[-> Hd]|[Hy Hne]].
      * apply Hix. rewrite E. exact Hd.
      * apply (Hc y); auto.
    + destruct Hy as [[-> Hd]|[Hy Hne]].
      * apply (Hc x); auto.
      * apply Hx. apply in_map_iff. exists y; auto.
  - apply IH; auto.
Qed.

Lemma write_eq (db : Collection) (doc : Invoice) :
  write db doc =
  if isStored db doc then map (replace_by doc) db else (db ++ [doc])%list.
Proof. reflexivity. Qed.

Lemma findOneAndDelete_split (db : Collection) (id uid : ObjectId) :
  fst (findOneAndDelete db id uid) = db
  \/ exists l1 x l2,
       db = (l1 ++ x :: l2)%list
       /\ fst (findOneAndDelete db id uid) = (l1 ++ l2)%list.
Proof.
  induction db as [|d rest IH]; simpl; [left; reflexivity|].
  destruct ((_id d =? id)%nat && (userId d =? uid)%nat).
  - right. exists [], d, rest. split; reflexivity.
  - destruct (findOneAndDelete rest id uid) as [rest' found]; simpl in *.
    destruct IH as [->|(l1 & x & l2 & -> & ->)]; [left; reflexivity|].
    right. exists (d :: l1), x, l2. split; reflexivity.
Qed.

Lemma findOneAndDelete_incl (db : Collection) (id uid : ObjectId) (d : Invoice) :
  In d (fst (findOneAndDelete db id uid)) -> In d db.
Proof.
  destruct (findOneAndDelete_split db id uid) as [->|(l1 & x & l2 & -> & ->)];
    [auto|].
  rewrite !in_app_iff. simpl. tauto.
Qed.

(** Reachable collections have pairwise distinct [_id]s and pairwise distinct
    invoice numbers. *)
Lemma reachable_NoDup (db : Collection) :
  reachable db -> NoDup (map _id db) /\ NoDup (map invoiceNumber db).
Proof.
  induction 1 as [|db now doc db' saved Hr [IHi IHn] Hs|db id uid Hr [IHi IHn]].
  - split; constructor.
  - apply save_resolved in Hs. destruct Hs as (_ & _ & Hc & ->).
    pose proof (no_conflict_numbers db saved Hc) as Hnum.
    rewrite write_eq. destruct (isStored db saved) eqn:St.
    + split.
      * rewrite map_replace_ids; assumption.
      * apply map_replace_numbers; assumption.
    + assert (~ In (_id saved) (map _id db)) as Hfresh.
      { intros Hin. apply isStored_iff in Hin. congruence. }
      rewrite !map_app; simpl. split.
      * apply Permutation_NoDup with (l := _id saved :: map _id db).
        -- apply Permutation_cons_append.
        -- constructor; assumption.
      * apply Permutation_NoDup
          with (l := invoiceNumber saved :: map invoiceNumber db).
        -- apply Permutation_cons_append.
        -- constructor; [|assumption].
           rewrite in_map_iff. intros (d & E & Hin).
           apply (Hnum d Hin); [|assumption].
           intros Hid. apply Hfresh. rewrite <- Hid. now apply in_map.
  - destruct (findOneAndDelete_split db id uid) as [->|(l1 & x & l2 & E & ->)];
      [auto|].
    subst db. rewrite !map_app in *. simpl in *.
    split; eapply NoDup_remove_1; eassumption.
Qed.

(** C4. Invoice numbers are unique across the whole collection, not per
    owner: in every collection the application can build no two documents
    share a number; a [save] under a number that another document holds is
    rejected, by the unique index on [invoiceNumber] alone when the document
    is valid, also when the two belong to different owners; so when one owner
    holds a month's number 1 and another owner has no invoice in that month,
    the generator proposes the same number to the second owner and saving
    under it fails. *)
Theorem invoiceNumber_unique_across_owners :
  forall db : Collection,
    reachable db ->
    NoDup (map invoiceNumber db)
    /\ (forall now doc d,
          In d db -> _id d <> _id doc -> invoiceNumber d = invoiceNumber doc ->
          exists e, save db now doc = Rejected e
                    /\ (validate doc = true ->
                        e = DuplicateKeyError "invoiceNumber_1"))
    /\ (forall now d doc,
          In d db -> invoiceNumber d = numberOf (invoicePrefix now) 1 ->
          userId doc <> userId d -> _id doc <> _id d ->
          (forall d', In d' db -> userId d' = userId doc ->
                      String.prefix (invoicePrefix now) (invoiceNumber d') = false) ->
          generateInvoiceNumber db now (userId doc) = Resolved (invoiceNumber d)
          /\ (invoiceNumber doc = invoiceNumber d ->
              exists e, save db now doc = Rejected e)).
Proof.
  intros db Hr. split; [apply reachable_NoDup; assumption|]. split.
  - intros now doc d. apply save_rejects_same_number.
  - intros now d doc Hin Hnum Hu Hid Hnone. split.
    + rewrite Hnum. apply generate_without_latest. exact Hnone.
    + intros E.
      destruct (save_rejects_same_number db now doc d) as (e & He & _); auto.
      exists e. exact He.
Qed.

Lemma reachable_collectionOf_owner1First : reachable (collectionOf owner1First).
Proof.
  apply reachable_save
    with (db := []) (now := september2025) (doc := owner1First)
         (saved := savedDocument owner1First).
  - apply reachable_empty.
  - vm_compute. reflexivity.
Defined.

Lemma invoiceNumber_unique_across_owners_witness :
  NoDup (map invoiceNumber (collectionOf owner1First))
  /\ save (collectionOf owner1First) september2025 owner2First
     = Rejected (DuplicateKeyError "invoiceNumber_1").
Proof.
  destruct (invoiceNumber_unique_across_owners
              (collectionOf owner1First) reachable_collectionOf_owner1First)
    as (Hn & Hrej & _).
  split; [exact Hn|].
  destruct (Hrej september2025 owner2First (savedDocument owner1First))
    as (e & He & Hdup).
  - vm_compute. left. reflexivity.
  - vm_compute. discriminate.
  - vm_compute. reflexivity.
  - rewrite He. f_equal. apply Hdup. vm_compute. reflexivity.
Defined.

(** ** The totals hook on stored documents *)

Lemma reduce_hook_withAmounts (l : list InvoiceItem) (init : Q) :
  reduce (fun sum item =>
            let item' := set_amount item (quantity item * rate item)%Q in
            ((sum + amount item')%Q, item')) (withAmounts l) init
  = reduce (fun sum item =>
              let item' := set_amount item (quantity item * rate item)%Q in
              ((sum + amount item')%Q, item')) l init.
Proof.
  revert init; induction l as [|x xs IH]; intros init; simpl; [reflexivity|].
  rewrite IH. reflexivity.
Qed.

Lemma withAmounts_idem (l : list InvoiceItem) :
  withAmounts (withAmounts l) = withAmounts l.
Proof.
  unfold withAmounts. rewrite map_map. apply map_ext. intros x. reflexivity.
Qed.

Lemma hookSubtotal_withAmounts (l : list InvoiceItem) :
  hookSubtotal (withAmounts l) = hookSubtotal l.
Proof. unfold hookSubtotal. rewrite reduce_hook_withAmounts. reflexivity. Qed.

Lemma pre_save_totals_fields (this : Invoice) :
  let d := pre_save_totals this in
  items d = withAmounts (items this)
  /\ subtotal d = hookSubtotal (items this)
  /\ taxAmount d = ((subtotal d * taxRate this) / 100)%Q
  /\ discountAmount d = ((subtotal d * discountRate this) / 100)%Q
  /\ total d = (subtotal d + taxAmount d - discountAmount d)%Q
  /\ taxRate d = taxRate this /\ discountRate d = discountRate this
  /\ customerId d = customerId this /\ currency d = currency this
  /\ notes d = notes this /\ terms d = terms this.
Proof.
  cbv zeta. split; [apply pre_save_totals_items|].
  unfold pre_save_totals, hookSubtotal.
  destruct (reduce _ (items this) 0%Q) as [s its]; simpl.
  repeat split; reflexivity.
Qed.

Lemma pre_save_status_frame (now : Date) (this : Invoice) :
  businessFields (pre_save_status now this) = businessFields this.
Proof.
  unfold pre_save_status.
  repeat match goal with
         | |- context [if ?b then _ else _] => destruct b
         end; reflexivity.
Qed.

Lemma pre_save_status_draft (now : Date) (this : Invoice) :
  status this = draft -> paidDate this = None ->
  pre_save_status now this = this.
Proof.
  intros Hs Hp. unfold pre_save_status. rewrite Hs, Hp. simpl.
  rewrite Bool.andb_false_r. reflexivity.
Qed.

Lemma saved_normalised (now : Date) (doc : Invoice) :
  normalised (set_updatedAt (pre_save_status now (pre_save_totals doc)) (getTime now)).
Proof.
  pose proof (pre_save_status_frame now (pre_save_totals doc)) as F.
  destruct (pre_save_totals_fields doc)
    as (Hi & Hs & Ht & Hd & Hto & Htr & Hdr & _). cbv zeta in *.
  unfold businessFields in F. inversion F as [[F1 F2 F3 F4 F5 F6 F7 F8 F9 F10 F11 F12]].
  unfold normalised. cbn [set_updatedAt items subtotal taxAmount taxRate
                          discountAmount discountRate total].
  rewrite F2, F3, F4, F5, F6, F7, F8.
  repeat split.
  - rewrite Hi. symmetry. apply withAmounts_idem.
  - rewrite Hs, Hi. symmetry. apply hookSubtotal_withAmounts.
  - rewrite Htr. exact Ht.
  - rewrite Hdr. exact Hd.
  - exact Hto.
Qed.

Lemma in_write (db : Collection) (doc y : Invoice) :
  In y (write db doc) -> y = doc \/ In y db.
Proof.
  rewrite write_eq. destruct (isStored db doc).
  - intros H. apply in_map_replace in H. tauto.
  - rewrite in_app_iff. simpl. intros [H|[H|[]]]; auto.
Qed.

(** Every stored document is normalised: it went through the totals hook. *)
Lemma reachable_normalised (db : Collection) :
  reachable db -> forall d, In d db -> normalised d.
Proof.
  induction 1 as [|db now doc db' saved Hr IH Hs|db id uid Hr IH]; intros d Hin.
  - destruct Hin.
  - apply save_resolved in Hs. destruct Hs as (_ & -> & _ & ->).
    apply in_write in Hin. destruct Hin as [->|Hin]; [|auto].
    apply saved_normalised.
  - apply IH. eapply findOneAndDelete_incl; eassumption.
Qed.

(** ** Duplicating an invoice *)

Lemma le_max_ids (db : Collection) (d : Invoice) :
  In d db -> (_id d <= fold_right Nat.max O (map _id db))%nat.
Proof.
  induction db as [|x xs IH]; simpl; intros H; [destruct H|].
  destruct H as [->|H]; [lia|]. specialize (IH H). lia.
Qed.

Lemma fresh_id_not_stored (db : Collection) (doc : Invoice) :
  _id doc = fresh_id db -> isStored db doc = false.
Proof.
  intros E. destruct (isStored db doc) eqn:S; [|reflexivity].
  unfold isStored in S. apply existsb_exists in S. destruct S as (d & Hin & Hd).
  apply Nat.eqb_eq in Hd. apply le_max_ids in Hin.
  unfold fresh_id in E. lia.
Qed.




(** ** Rounding of the totals *)

Lemma rawSubtotal_nonneg_from (items : list InvoiceItem) (init : Q) :
  Forall (fun item => (0 < quantity item)%Q /\ (0 <= rate item)%Q) items ->
  (0 <= init)%Q ->
  (0 <= fold_left (fun sum item => (sum + quantity item * rate item)%Q) items init)%Q.
Proof.
  intros H. revert init. induction H as [|x xs [Hq Hr] _ IH]; intros init Hi; simpl.
  - assumption.
  - apply IH. assert (0 <= quantity x * rate x)%Q by (apply Qmult_le_0_compat; lra).
    lra.
Qed.

(** C1 (the code departs from the claim).  The controller hands [save] the
    rounded totals of [calculateInvoiceTotals], and the totals hook of [save]
    recomputes them without rounding: for one item of quantity 1 at rate 1
    and 8.25 % tax the calculator returns a tax amount of 0.08 and the stored
    document carries 0.0825 and a total of 1.0825, which is not a whole
    number of hundredths. *)
Theorem createInvoice_stores_unrounded_totals :
  exists inv,
    createInvoice [] [(7, 1)%nat] september2025 (Some 1%nat) unroundedBody
    = ([inv], mkResponse 201 "Invoice created successfully" (Some inv))
    /\ (Totals.taxAmount
          (calculateInvoiceTotals (CreateBody.items unroundedBody)
             (CreateBody.taxRate unroundedBody) (Some 0%Q)) == 8 # 100)%Q
    /\ (taxAmount inv == 825 # 10000)%Q
    /\ (total inv == 10825 # 10000)%Q
    /\ ~ (exists n : Z, (taxAmount inv == inject_Z n / 100)%Q)
    /\ ~ roundedHalfAwayFromZero
           (rawTaxAmount (CreateBody.items unroundedBody) (825 # 100))
           (taxAmount inv).
Proof.
  eexists. split; [vm_compute; reflexivity|].
  split; [vm_compute; reflexivity|].
  split; [vm_compute; reflexivity|].
  split; [vm_compute; reflexivity|].
  assert (forall n : Z, ~ (825 # 10000 == inject_Z n / 100)%Q) as Hn.
  { intros n H. unfold Qeq, Qdiv, Qmult, Qinv, inject_Z in H. simpl in H. lia. }
  split.
  - intros (n & H). apply (Hn n). rewrite <- H. vm_compute. reflexivity.
  - intros (n & H & _). apply (Hn n). rewrite <- H. vm_compute. reflexivity.
Qed.

(** ** Sequence texts of up to four digits *)

Lemma forallb_upto (f : Z -> bool) (n : Z) :
  forallb f (upto n) = true ->
  forall k, 0 <= k < n -> f k = true.
Proof.
  intros H k Hk. rewrite forallb_forall in H. apply H.
  unfold upto. apply in_map_iff. exists (Z.to_nat k). split; [lia|].
  apply in_seq. lia.
Qed.

Lemma Num_eqb_eq (a b : JS.Num) : Num_eqb a b = true -> a = b.
Proof.
  destruct a, b; simpl; try discriminate; [reflexivity|].
  intros H. apply Z.eqb_eq in H. congruence.
Qed.

(** The texts of 0 ... 10000 read back as the numbers they print. *)
Lemma parseInt_sequenceText (k : Z) :
  0 <= k <= 10000 -> JS.parseInt (Some (sequenceText k)) = JS.Int k.
Proof.
  intros Hk. apply Num_eqb_eq.
  apply (forallb_upto
           (fun k => Num_eqb (JS.parseInt (Some (sequenceText k))) (JS.Int k))
           10001); [vm_compute; reflexivity | lia].
Qed.


Lemma noDash_sequenceText (k : Z) :
  0 <= k <= 10000 -> noDash (sequenceText k) = true.
Proof.
  intros Hk.
  apply (forallb_upto (fun k => noDash (sequenceText k)) 10001);
    [vm_compute; reflexivity | lia].
Qed.


(** ** Dashes and the segments of an invoice number *)

Lemma noDash_append (a b : string) :
  noDash (a ++ b) = noDash a && noDash b.
Proof.
  induction a as [|c a IH]; simpl; [reflexivity|].
  rewrite IH. apply Bool.andb_assoc.
Qed.

Lemma noDash_string_of_uint (u : Decimal.uint) :
  noDash (NilEmpty.string_of_uint u) = true.
Proof. induction u; simpl; auto. Qed.

Lemma noDash_ToString (z : Z) : 0 <= z -> noDash (JS.ToString (JS.Int z)) = true.
Proof.
  intros Hz. unfold JS.ToString. destruct z as [|p|p]; simpl.
  - reflexivity.
  - apply noDash_string_of_uint.
  - lia.
Qed.

Lemma noDash_repeat_zero (n : nat) : noDash (JS.repeat_char "0" n) = true.
Proof. induction n; simpl; auto. Qed.

Lemma noDash_padStart (s : string) (n : nat) :
  noDash s = true -> noDash (JS.padStart s n "0") = true.
Proof.
  intros H. unfold JS.padStart. rewrite noDash_append, noDash_repeat_zero, H.
  reflexivity.
Qed.

Lemma split_noDash (a : string) : noDash a = true -> JS.split "-" a = [a].
Proof.
  induction a as [|c a IH]; simpl; [reflexivity|].
  intros H. apply Bool.andb_true_iff in H. destruct H as [Hc Ha].
  apply Bool.negb_true_iff in Hc. rewrite Hc, (IH Ha). reflexivity.
Qed.

Lemma split_segment (a b : string) :
  noDash a = true -> JS.split "-" (a ++ String "-" b) = a :: JS.split "-" b.
Proof.
  induction a as [|c a IH]; simpl; [reflexivity|].
  intros H. apply Bool.andb_true_iff in H. destruct H as [Hc Ha].
  apply Bool.negb_true_iff in Hc. rewrite Hc, (IH Ha). reflexivity.
Qed.

Lemma invoiceNumber_segments (now : Date) (text : string) :
  invoicePrefix now ++ "-" ++ text =
  "INV" ++ String "-"
    (JS.ToString (JS.Int (getFullYear now)) ++ String "-"
       (JS.padStart (JS.ToString (JS.Int (getMonth now + 1))) 2 "0" ++
        String "-" text)).
Proof.
  unfold invoicePrefix. cbv zeta. rewrite !append_assoc. reflexivity.
Qed.

(** The fourth segment of [INV-YYYY-MM-text] is [text]. *)
Lemma fourth_segment (now : Date) (text : string) :
  validDate now -> noDash text = true ->
  nth_error (JS.split "-" (invoicePrefix now ++ "-" ++ text)) 3 = Some text.
Proof.
  intros [Hy Hm] Ht. rewrite invoiceNumber_segments.
  rewrite split_segment by reflexivity.
  rewrite split_segment by (apply noDash_ToString; assumption).
  rewrite split_segment
    by (apply noDash_padStart, noDash_ToString; lia).
  rewrite split_noDash by assumption. reflexivity.
Qed.

(** ** The generator from one cycle to the next *)















(** ** Stored documents pass the schema again *)

Lemma reduce_hook_eq (l : list InvoiceItem) (init : Q) :
  reduce (fun sum item =>
            let item' := set_amount item (quantity item * rate item)%Q in
            ((sum + amount item')%Q, item')) l init
  = (fold_left (fun sum item => (sum + quantity item * rate item)%Q) l init,
     withAmounts l).
Proof.
  revert init; induction l as [|x xs IH]; intros init; simpl; [reflexivity|].
  rewrite IH. reflexivity.
Qed.

Lemma hookSubtotal_raw (l : list InvoiceItem) : hookSubtotal l = rawSubtotal l.
Proof. unfold hookSubtotal. rewrite reduce_hook_eq. reflexivity. Qed.

Lemma validItem_domain (items : list InvoiceItem) :
  forallb validItem items = true ->
  Forall (fun item => (0 < quantity item)%Q /\ (0 <= rate item)%Q) items.
Proof.
  rewrite forallb_forall, Forall_forall. intros H x Hx.
  specialize (H x Hx). unfold validItem in H.
  split_andb H.
  to_Qle. split; lra.
Qed.

Lemma validItem_withAmounts (items : list InvoiceItem) :
  forallb validItem items = true ->
  forallb validItem (withAmounts items) = true.
Proof.
  rewrite !forallb_forall. intros H y Hy.
  unfold withAmounts in Hy. apply in_map_iff in Hy. destruct Hy as (x & <- & Hx).
  specialize (H x Hx). unfold validItem in *.
  cbn [set_amount description quantity rate amount].
  split_andb H.
  andb_goal; try assumption.
  to_Qle. apply Qle_bool_iff. apply Qmult_le_0_compat; lra.
Qed.



(** ** Creating an invoice succeeds on valid requests *)








(** ** Numbers of other year-months do not carry the month's prefix *)

Lemma ToString_inj (x y : Z) :
  JS.ToString (JS.Int x) = JS.ToString (JS.Int y) -> x = y.
Proof.
  unfold JS.ToString. intros E.
  assert (Some (Z.to_int x) = Some (Z.to_int y)) as E'
      by (rewrite <- !NilEmpty.isi; rewrite E; reflexivity).
  inversion E' as [E'']. rewrite <- (DecimalZ.of_to x), <- (DecimalZ.of_to y).
  rewrite E''. reflexivity.
Qed.

Lemma monthText_spec (m : Z) :
  0 <= m <= 11 ->
  String.length (monthText m) = 2%nat
  /\ noDash (monthText m) = true
  /\ JS.parseInt (Some (monthText m)) = JS.Int (m + 1).
Proof.
  intros Hm.
  assert ((String.length (monthText m) =? 2)%nat
          && noDash (monthText m)
          && Num_eqb (JS.parseInt (Some (monthText m))) (JS.Int (m + 1)) = true)
    as H.
  { apply (forallb_upto
             (fun m => (String.length (monthText m) =? 2)%nat
                       && noDash (monthText m)
                       && Num_eqb (JS.parseInt (Some (monthText m)))
                            (JS.Int (m + 1)))
             12); [vm_compute; reflexivity | lia]. }
  apply Bool.andb_true_iff in H. destruct H as [H C].
  apply Bool.andb_true_iff in H. destruct H as [A B].
  apply Nat.eqb_eq in A. apply Num_eqb_eq in C. auto.
Qed.

Lemma prefix_common (p a b : string) :
  String.prefix (p ++ a) (p ++ b) = String.prefix a b.
Proof.
  induction p as [|c p IH]; simpl; [reflexivity|].
  destruct (ascii_dec c c); [exact IH | congruence].
Qed.

Lemma prefix_cons (c c' : ascii) (a b : string) :
  String.prefix (String c a) (String c' b)
  = if ascii_dec c c' then String.prefix a b else false.
Proof. reflexivity. Qed.

Lemma prefix_segment (a b x y : string) :
  noDash a = true -> noDash b = true ->
  String.prefix (a ++ String "-" x) (b ++ String "-" y) = true ->
  a = b /\ String.prefix x y = true.
Proof.
  revert b. induction a as [|c a IH]; intros b Ha Hb H.
  - destruct b as [|c' b]; cbn [append noDash] in *; rewrite prefix_cons in H.
    + destruct (ascii_dec "-" "-"); [|congruence].
      split; [reflexivity | assumption].
    + apply Bool.andb_true_iff in Hb. destruct Hb as [Hc _].
      apply Bool.negb_true_iff, Ascii.eqb_neq in Hc.
      destruct (ascii_dec "-" c'); [congruence | discriminate H].
  - cbn [noDash] in Ha. apply Bool.andb_true_iff in Ha. destruct Ha as [Hc Ha].
    apply Bool.negb_true_iff, Ascii.eqb_neq in Hc.
    destruct b as [|c' b]; cbn [append noDash] in *; rewrite prefix_cons in H.
    + destruct (ascii_dec c "-"); [congruence | discriminate H].
    + apply Bool.andb_true_iff in Hb. destruct Hb as [_ Hb].
      destruct (ascii_dec c c') as [->|]; [|discriminate H].
      destruct (IH b Ha Hb H) as [-> Hp]. auto.
Qed.

Lemma prefix_same_length (a b c : string) :
  String.length a = String.length b ->
  String.prefix a (b ++ c) = true -> a = b.
Proof.
  revert b. induction a as [|x a IH]; intros b Hl H.
  - destruct b; [reflexivity | discriminate Hl].
  - destruct b as [|y b]; [discriminate Hl|].
    cbn [append String.length] in *. rewrite prefix_cons in H.
    destruct (ascii_dec x y) as [->|]; [|discriminate H].
    f_equal. apply IH; [congruence | assumption].
Qed.

Lemma invoicePrefix_segments (now : Date) :
  invoicePrefix now =
  "INV" ++ String "-"
    (JS.ToString (JS.Int (getFullYear now)) ++ String "-" (monthText (getMonth now))).
Proof. reflexivity. Qed.

(** A number issued under another year-month does not start with this
    month's prefix. *)
Lemma other_month_no_prefix (now other : Date) (text : string) :
  validDate now -> validDate other ->
  String.prefix (invoicePrefix now) (invoicePrefix other ++ "-" ++ text) = true ->
  getFullYear other = getFullYear now /\ getMonth other = getMonth now.
Proof.
  intros [Hy Hm] [Hy' Hm'] H.
  rewrite invoiceNumber_segments, invoicePrefix_segments in H.
  rewrite prefix_common, prefix_cons in H.
  destruct (ascii_dec "-" "-") as [_|]; [|congruence].
  fold (monthText (getMonth other)) in H.
  destruct (monthText_spec (getMonth now) Hm) as (L & D & P).
  destruct (monthText_spec (getMonth other) Hm') as (L' & D' & P').
  apply prefix_segment in H; try (apply noDash_ToString; assumption).
  destruct H as [Ey Hp]. apply ToString_inj in Ey.
  apply prefix_same_length in Hp; [|congruence].
  rewrite Hp in P. rewrite P' in P. inversion P. split; lia.
Qed.

(** The owner's invoices were all issued in other year-months: the sequence
    starts at 1. *)
Lemma generate_after_key_change (db : Collection) (now : Date) (uid : ObjectId) :
  validDate now ->
  (forall d, In d db -> userId d = uid ->
     exists other text,
       validDate other
       /\ (getFullYear other <> getFullYear now \/ getMonth other <> getMonth now)
       /\ invoiceNumber d = invoicePrefix other ++ "-" ++ text) ->
  generateInvoiceNumber db now uid = Resolved (numberOf (invoicePrefix now) 1).
Proof.
  intros Hv H. apply generate_without_latest.
  intros d Hd Hu. destruct (H d Hd Hu) as (other & text & Hv' & Hne & ->).
  destruct (String.prefix _ _) eqn:P; [|reflexivity].
  apply other_month_no_prefix in P; try assumption.
  destruct P as [E1 E2]. destruct Hne; contradiction.
Qed.

(** ** Duplicating an invoice: the created document *)




Lemma createInvoice_reachable
    (db : Collection) (customers : Customers) (now : Date)
    (user : option ObjectId) (body : CreateBody.t) :
  reachable db -> reachable (fst (createInvoice db customers now user body)).
Proof.
  intros Hr. unfold createInvoice. destruct user as [uid|]; [|exact Hr].
  destruct (negb _); [exact Hr|]. destruct (negb _); [exact Hr|].
  rewrite generateInvoiceNumber_eq. cbn [await].
  match goal with
  | |- context [save db now ?d] =>
      destruct (save db now d) as [[db2 inv]|e] eqn:S
  end; [|exact Hr].
  cbn [fst]. eapply reachable_save; eassumption.
Qed.


(** ** Sequential generate-then-persist cycles *)




(** * Further properties of the invoice code *)

(** ** What [save] accepts and what it stores *)

Lemma pre_save_status_paid_when_dated (now : Date) (this : Invoice) :
  paidDate (pre_save_status now this) <> None ->
  status (pre_save_status now this) = paid.
Proof.
  unfold pre_save_status.
  destruct (paidDate this) as [t|] eqn:P; cbn [truthy negb andb].
  - destruct (Status_eqb (status this) paid) eqn:E; cbn [negb andb].
    + apply Status_eqb_eq in E. rewrite Bool.andb_false_r. auto.
    + reflexivity.
  - destruct (Status_eqb (status this) paid) eqn:E; cbn [negb andb].
    + cbn [set_paidDate paidDate]. congruence.
    + rewrite Bool.andb_true_r.
      destruct (_ && _); cbn [set_status paidDate]; rewrite ?P; congruence.
Qed.

(** X2. In every collection the application can build, each stored invoice
    that carries a paid date has status [paid], and each stored invoice is
    what the totals hook derives: every item's amount is quantity times
    rate, the subtotal is their sum, and tax, discount and total follow from
    the subtotal and the stored rates, whatever amounts the client sent. *)
Theorem stored_invoices_consistent :
  forall (db : Collection) (d : Invoice),
    reachable db -> In d db ->
    (paidDate d <> None -> status d = paid)
    /\ Forall (fun item => amount item = (quantity item * rate item)%Q) (items d)
    /\ subtotal d = rawSubtotal (items d)
    /\ taxAmount d = ((subtotal d * taxRate d) / 100)%Q
    /\ discountAmount d = ((subtotal d * discountRate d) / 100)%Q
    /\ total d = (subtotal d + taxAmount d - discountAmount d)%Q.
Proof.
  intros db d Hr Hin. split.
  - revert d Hin.
    induction Hr as [|db now doc db' saved Hr IH Hs|db id uid Hr IH]; intros d Hin.
    + destruct Hin.
    + apply save_resolved in Hs. destruct Hs as (_ & -> & _ & ->).
      apply in_write in Hin. destruct Hin as [->|Hin]; [|auto].
      cbn [set_updatedAt paidDate status]. apply pre_save_status_paid_when_dated.
    + apply IH. eapply findOneAndDelete_incl; eassumption.
  - destruct (reachable_normalised db Hr d Hin) as (Ni & Ns & Nt & Nd & Nto).
    rewrite hookSubtotal_raw in Ns. repeat split; try assumption.
    rewrite Ni. unfold withAmounts. apply Forall_forall. intros y Hy.
    apply in_map_iff in Hy. destruct Hy as (x & <- & _). reflexivity.
Qed.

Lemma stored_invoices_consistent_witness :
  subtotal (savedDocument owner1First) = rawSubtotal exampleItems
  /\ Forall (fun item => amount item = (quantity item * rate item)%Q)
       (items (savedDocument owner1First)).
Proof.
  destruct (stored_invoices_consistent (collectionOf owner1First)
              (savedDocument owner1First) reachable_collectionOf_owner1First)
    as (_ & Hitems & Hsub & _).
  - vm_compute. left. reflexivity.
  - split; [exact Hsub | exact Hitems].
Defined.

Lemma saved_items_and_rates (now : Date) (doc : Invoice) :
  let saved :=
    set_updatedAt (pre_save_status now (pre_save_totals doc)) (getTime now) in
  items saved = withAmounts (items doc)
  /\ taxRate saved = taxRate doc /\ discountRate saved = discountRate doc.
Proof.
  cbv zeta.
  destruct (pre_save_totals_fields doc)
    as (Fi & _ & _ & _ & _ & Ftr & Fdr & _). cbv zeta in Fi, Ftr, Fdr.
  pose proof (pre_save_status_frame now (pre_save_totals doc)) as F.
  cbn [set_updatedAt items taxRate discountRate].
  rewrite <- Fi, <- Ftr, <- Fdr.
  repeat split.
  - exact (f_equal bf_items F).
  - exact (f_equal bf_taxRate F).
  - exact (f_equal bf_discountRate F).
Qed.

(** What validation checked on the way in and the hooks leave alone or
    recompute from it: the items and the two rates of a stored document. *)
Lemma reachable_items_and_rates (db : Collection) :
  reachable db -> forall d, In d db ->
    items d <> []
    /\ forallb validItem (items d) = true
    /\ (0 <= taxRate d <= 100)%Q /\ (0 <= discountRate d <= 100)%Q.
Proof.
  induction 1 as [|db now doc db' saved Hr IH Hs|db id uid Hr IH]; intros d Hin.
  - destruct Hin.
  - apply save_resolved in Hs. destruct Hs as (Hv & -> & _ & ->).
    apply in_write in Hin. destruct Hin as [->|Hin]; [|auto].
    destruct (saved_items_and_rates now doc) as (Ei & Et & Ed).
    cbv zeta in Ei, Et, Ed. rewrite Ei, Et, Ed.
    unfold validate in Hv. split_andb Hv. to_Qle.
    repeat split; try assumption.
    + intros E. unfold withAmounts in E. apply map_eq_nil in E.
      rewrite E in *. discriminate.
    + apply validItem_withAmounts. assumption.
  - apply IH. eapply findOneAndDelete_incl; eassumption.
Qed.

(** X3. Stored invoices stay within the schema's bounds on items, rates and
    the three amounts the hooks derive by multiplication and addition: in
    every collection the application can build, each stored invoice has at
    least one item, quantities of at least 0.01, non-negative rates and
    amounts, tax and discount rates between 0 and 100, and non-negative
    subtotal, tax amount and discount amount. *)
Theorem stored_invoices_within_bounds :
  forall (db : Collection) (d : Invoice),
    reachable db -> In d db ->
    items d <> []
    /\ Forall (fun item => (1 # 100 <= quantity item)%Q /\ (0 <= rate item)%Q
                           /\ (0 <= amount item)%Q) (items d)
    /\ (0 <= taxRate d <= 100)%Q /\ (0 <= discountRate d <= 100)%Q
    /\ (0 <= subtotal d)%Q /\ (0 <= taxAmount d)%Q
    /\ (0 <= discountAmount d)%Q.
Proof.
  intros db d Hr Hin.
  destruct (reachable_items_and_rates db Hr d Hin) as (Hne & Hitems & Ht & Hd).
  destruct (reachable_normalised db Hr d Hin) as (_ & Ns & Nt & Nd & _).
  assert (0 <= subtotal d)%Q as Hs.
  { rewrite Ns, hookSubtotal_raw.
    apply rawSubtotal_nonneg_from; [apply validItem_domain; assumption | lra]. }
  assert (0 <= subtotal d * taxRate d)%Q by (apply Qmult_le_0_compat; lra).
  assert (0 <= subtotal d * discountRate d)%Q
    by (apply Qmult_le_0_compat; lra).
  repeat split; try tauto.
  - apply Forall_forall. intros x Hx.
    rewrite forallb_forall in Hitems. specialize (Hitems x Hx).
    unfold validItem in Hitems. split_andb Hitems. to_Qle. auto.
  - rewrite Nt. unfold Qdiv. apply Qmult_le_0_compat; [assumption|discriminate].
  - rewrite Nd. unfold Qdiv. apply Qmult_le_0_compat; [assumption|discriminate].
Qed.

Lemma stored_invoices_within_bounds_witness :
  (0 <= discountAmount (savedDocument owner1First))%Q.
Proof.
  destruct (stored_invoices_within_bounds (collectionOf owner1First)
              (savedDocument owner1First) reachable_collectionOf_owner1First)
    as (_ & _ & _ & _ & _ & _ & Hd).
  - vm_compute. left. reflexivity.
  - exact Hd.
Defined.

(** ** Invoice numbers: reading back, prefixes, reuse *)

(** X4. An invoice number written by the generator reads back: for a clock
    reading with a non-negative year and every sequence from 0 to 10000, the
    fourth dash-separated segment of [prefix-sequence] parses to that
    sequence, so the next sequence computed from such a latest invoice is its
    successor. *)
Theorem sequence_reads_back :
  forall (now : Date) (k : Z) (inv : Invoice),
    validDate now -> 0 <= k <= 10000 ->
    invoiceNumber inv = numberOf (invoicePrefix now) k ->
    JS.parseInt (nth_error (JS.split "-" (invoiceNumber inv)) 3) = JS.Int k
    /\ nextSequence (Some inv) = JS.Int (k + 1).
Proof.
  intros now k inv Hv Hk Hn.
  assert (JS.parseInt (nth_error (JS.split "-" (invoiceNumber inv)) 3) = JS.Int k)
    as H.
  { rewrite Hn. unfold numberOf.
    rewrite (fourth_segment now (sequenceText k) Hv)
      by (apply noDash_sequenceText; assumption).
    apply parseInt_sequenceText. assumption. }
  split; [exact H|]. unfold nextSequence. rewrite H. reflexivity.
Qed.

Lemma sequence_reads_back_witness :
  nextSequence (Some at9999) = JS.Int 10000.
Proof.
  refine (proj2 (sequence_reads_back september2025 9999 at9999 _ _ _)).
  - split; simpl; lia.
  - lia.
  - vm_compute. reflexivity.
Defined.

(** X5. The prefix query separates year-months: for clock readings with
    non-negative years, a number issued under one reading starts with the
    prefix of another reading exactly when the two readings have the same
    year and the same month. *)
Theorem prefix_matches_same_month_only :
  forall (now other : Date) (text : string),
    validDate now -> validDate other ->
    (String.prefix (invoicePrefix now) (invoicePrefix other ++ "-" ++ text) = true
     <-> getFullYear other = getFullYear now /\ getMonth other = getMonth now).
Proof.
  intros now other text Hv Hv'. split.
  - apply other_month_no_prefix; assumption.
  - intros [Ey Em].
    assert (invoicePrefix other = invoicePrefix now) as ->
        by (unfold invoicePrefix; rewrite Ey, Em; reflexivity).
    apply prefix_append.
Qed.

Lemma prefix_matches_same_month_only_witness :
  String.prefix (invoicePrefix september2025)
    (invoicePrefix (mkDate 1754000000000 2025 7) ++ "-" ++ "0001") = false.
Proof.
  destruct (String.prefix _ _) eqn:P; [|reflexivity].
  apply (proj1 (prefix_matches_same_month_only september2025
                  (mkDate 1754000000000 2025 7) "0001"
                  ltac:(split; simpl; lia) ltac:(split; simpl; lia))) in P.
  destruct P as [_ P]. discriminate P.
Defined.

Lemma findOneAndDelete_last (db : Collection) (x : Invoice) (uid : ObjectId) :
  isStored db x = false -> userId x = uid ->
  findOneAndDelete (db ++ [x])%list (_id x) uid = (db, Some x).
Proof.
  intros Hs Hu. induction db as [|d rest IH]; simpl.
  - rewrite Nat.eqb_refl, Hu, Nat.eqb_refl. reflexivity.
  - unfold isStored in Hs. simpl in Hs. apply Bool.orb_false_iff in Hs.
    destruct Hs as [Hd Hrest]. rewrite Hd. cbn [andb].
    rewrite (IH Hrest). reflexivity.
Qed.

Lemma createInvoice_outcome
    (db db' : Collection) (customers : Customers) (now : Date)
    (user : option ObjectId) (body : CreateBody.t) (res : Response) :
  createInvoice db customers now user body = (db', res) ->
  (code res = 201%nat
   /\ exists uid number inv,
        user = Some uid
        /\ generateInvoiceNumber db now uid = Resolved number
        /\ invoice res = Some inv
        /\ inv = set_updatedAt
                   (pre_save_status now
                      (pre_save_totals
                         (mkInvoice (fresh_id db) uid (CreateBody.customerId body)
                            number draft (withAmounts (CreateBody.items body))
                            (Totals.subtotal
                               (calculateInvoiceTotals (CreateBody.items body)
                                  (Some (orDefault (CreateBody.taxRate body) 0%Q))
                                  (Some (orDefault (CreateBody.discountRate body) 0%Q))))
                            (orDefault (CreateBody.taxRate body) 0%Q)
                            (Totals.taxAmount
                               (calculateInvoiceTotals (CreateBody.items body)
                                  (Some (orDefault (CreateBody.taxRate body) 0%Q))
                                  (Some (orDefault (CreateBody.discountRate body) 0%Q))))
                            (orDefault (CreateBody.discountRate body) 0%Q)
                            (Totals.discountAmount
                               (calculateInvoiceTotals (CreateBody.items body)
                                  (Some (orDefault (CreateBody.taxRate body) 0%Q))
                                  (Some (orDefault (CreateBody.discountRate body) 0%Q))))
                            (Totals.total
                               (calculateInvoiceTotals (CreateBody.items body)
                                  (Some (orDefault (CreateBody.taxRate body) 0%Q))
                                  (Some (orDefault (CreateBody.discountRate body) 0%Q))))
                            (orDefault (CreateBody.currency body) "USD")
                            (getTime now) (CreateBody.dueDate body) None
                            (CreateBody.notes body) (CreateBody.terms body)
                            default None (getTime now) (getTime now))))
                   (getTime now)
        /\ db' = (db ++ [inv])%list)
  \/ ((code res = 400 \/ code res = 401 \/ code res = 404 \/ code res = 500)%nat
      /\ invoice res = None /\ db' = db).
Proof.
  unfold createInvoice. destruct user as [uid|];
    [|intros H; inversion H; subst; right; cbn; auto].
  destruct (negb (CreateBody.invoiceValidation body));
    [intros H; inversion H; subst; right; cbn; auto|].
  destruct (negb (Customer_findOne customers (CreateBody.customerId body) uid));
    [intros H; inversion H; subst; right; cbn; auto 6|].
  rewrite generateInvoiceNumber_eq. cbn [await].
  match goal with
  | |- context [save db now ?d] =>
      set (doc := d); destruct (save db now doc) as [[db2 inv]|e] eqn:S
  end; [|intros H; inversion H; subst; right; cbn; auto 6].
  intros H. inversion H; subst db2 res. clear H. left.
  split; [reflexivity|].
  apply save_resolved in S. destruct S as (_ & Hinv & _ & Hdb).
  destruct (saved_key now doc) as (Hid & _ & _). cbv zeta in Hid.
  rewrite <- Hinv in Hid.
  eexists uid, _, inv. split; [reflexivity|]. split; [reflexivity|].
  split; [reflexivity|]. split; [exact Hinv|].
  rewrite Hdb, write_eq, (fresh_id_not_stored db inv Hid). reflexivity.
Qed.

(** ** Creating, updating and deleting through the controllers *)

Lemma createInvoice_cases :
  forall (db db' : Collection) (customers : Customers) (now : Date)
         (user : option ObjectId) (body : CreateBody.t) (res : Response),
    createInvoice db customers now user body = (db', res) ->
    (code res = 201%nat
     /\ exists inv,
          invoice res = Some inv
          /\ db' = (db ++ [inv])%list
          /\ user = Some (userId inv)
          /\ generateInvoiceNumber db now (userId inv)
             = Resolved (invoiceNumber inv)
          /\ status inv = draft /\ paidDate inv = None
          /\ issueDate inv = getTime now
          /\ customerId inv = CreateBody.customerId body
          /\ dueDate inv = CreateBody.dueDate body)
    \/ ((code res = 400 \/ code res = 401 \/ code res = 404 \/ code res = 500)%nat
        /\ invoice res = None /\ db' = db).
Proof.
  intros db db' customers now user body res H.
  destruct (createInvoice_outcome _ _ _ _ _ _ _ H)
    as [(Hc & uid & number & inv & Hu & Hg & Hres & Hinv & Hdb)|F];
    [left|right; exact F].
  split; [exact Hc|]. exists inv.
  match type of Hinv with
  | inv = set_updatedAt (pre_save_status now (pre_save_totals ?d)) _ =>
      set (doc := d) in *
  end.
  destruct (saved_key now doc) as (_ & Hou & Hon). cbv zeta in Hou, Hon.
  rewrite <- Hinv in Hou, Hon.
  destruct (pre_save_totals_status doc) as (Hst & Hpd & Hdue).
  pose proof (pre_save_status_draft now (pre_save_totals doc) Hst Hpd) as Hd.
  rewrite Hd in Hinv.
  destruct (pre_save_totals_fields doc)
    as (_ & _ & _ & _ & _ & _ & _ & Fc & _).
  assert (issueDate (pre_save_totals doc) = getTime now) as Hiss.
  { unfold pre_save_totals. destruct (reduce _ (items doc) 0%Q). reflexivity. }
  subst inv. cbn [set_updatedAt status paidDate issueDate customerId dueDate
                  userId invoiceNumber] in *.
  repeat split; try assumption.
  - rewrite Hou. exact Hu.
  - rewrite Hou, Hon. exact Hg.
Qed.

(** X6. [createInvoice] either answers 201 and appends exactly one document
    to the collection, owned by the caller, in status [draft], without paid
    date, issued at the time of the request and carrying the number the
    generator proposed; or it answers 400, 401, 404 or 500 and leaves the
    collection as it was.  Stored documents are never touched. *)
Theorem createInvoice_appends_or_leaves :
  forall (db db' : Collection) (customers : Customers) (now : Date)
         (user : option ObjectId) (body : CreateBody.t) (res : Response),
    createInvoice db customers now user body = (db', res) ->
    (code res = 201%nat
     /\ exists inv,
          invoice res = Some inv
          /\ db' = (db ++ [inv])%list
          /\ user = Some (userId inv)
          /\ generateInvoiceNumber db now (userId inv)
             = Resolved (invoiceNumber inv)
          /\ status inv = draft /\ paidDate inv = None
          /\ issueDate inv = getTime now
          /\ customerId inv = CreateBody.customerId body
          /\ dueDate inv = CreateBody.dueDate body)
    \/ ((code res = 400 \/ code res = 401 \/ code res = 404 \/ code res = 500)%nat
        /\ invoice res = None /\ db' = db).
Proof. exact createInvoice_cases. Qed.

Lemma createInvoice_appends_or_leaves_witness :
  exists inv,
    fst (createInvoice [] [(7, 1)%nat] september2025 (Some 1%nat) exampleBody)
    = [inv]
    /\ status inv = draft.
Proof.
  destruct (createInvoice_appends_or_leaves
              [] (fst (createInvoice [] [(7, 1)%nat] september2025 (Some 1%nat)
                         exampleBody))
              [(7, 1)%nat] september2025 (Some 1%nat) exampleBody
              (snd (createInvoice [] [(7, 1)%nat] september2025 (Some 1%nat)
                      exampleBody))
              (surjective_pairing _))
    as [(_ & inv & _ & Hdb & _ & _ & Hst & _)|(Hc & _)].
  - exists inv. split; [exact Hdb | exact Hst].
  - vm_compute in Hc. exfalso.
    destruct Hc as [Hc|[Hc|[Hc|Hc]]]; discriminate Hc.
Defined.

(** X7. The route validators and the schema disagree on small quantities:
    the validators accept a quantity that is positive and prints without
    exponent, that is from 0.000001 on, and the schema asks for at least
    0.01.  For an authenticated caller, a body that passes the route
    validators and a customer of the caller, [createInvoice] answers 201 or
    500, never 400; when it answers 201 every quantity is at least 0.01; and
    a body with a quantity below 0.01 is answered 500 and leaves the
    collection as it was. *)
Theorem createInvoice_quantity_below_schema_minimum :
  forall (db : Collection) (customers : Customers) (now : Date) (uid : ObjectId)
         (body : CreateBody.t),
    CreateBody.invoiceValidation body = true ->
    Customer_findOne customers (CreateBody.customerId body) uid = true ->
    let out := createInvoice db customers now (Some uid) body in
    (code (snd out) = 201%nat \/ code (snd out) = 500%nat)
    /\ (code (snd out) = 201%nat ->
        Forall (fun item => (1 # 100 <= quantity item)%Q) (CreateBody.items body))
    /\ (Exists (fun item => (quantity item < 1 # 100)%Q) (CreateBody.items body) ->
        code (snd out) = 500%nat /\ fst out = db).
Proof.
  intros db customers now uid body Hb Hc out.
  assert (code (snd out) = 201%nat \/ (code (snd out) = 500%nat /\ fst out = db))
    as Hcases.
  { subst out. unfold createInvoice. rewrite Hb, Hc, generateInvoiceNumber_eq.
    cbn [negb await].
    match goal with
    | |- context [save db now ?d] =>
        destruct (save db now d) as [[db2 inv]|e]
    end; cbn; auto. }
  assert (code (snd out) = 201%nat ->
          Forall (fun item => (1 # 100 <= quantity item)%Q)
            (CreateBody.items body)) as Hfwd.
  { subst out. unfold createInvoice. rewrite Hb, Hc, generateInvoiceNumber_eq.
    cbn [negb await].
    match goal with
    | |- context [save db now ?d] =>
        set (doc := d); destruct (save db now doc) as [[db2 inv]|e] eqn:S
    end; [|cbn; intros H; discriminate H].
    intros _. apply save_resolved in S. destruct S as (Hv & _).
    unfold validate in Hv. split_andb Hv.
    match goal with
    | H : forallb validItem (items doc) = true |- _ => rename H into Hitems
    end.
    subst doc. cbn [items] in Hitems. rewrite forallb_forall in Hitems.
    apply Forall_forall. intros x Hx.
    assert (In (set_amount x (quantity x * rate x)%Q)
              (withAmounts (CreateBody.items body))) as Hin
        by (unfold withAmounts; apply in_map_iff; exists x; auto).
    specialize (Hitems _ Hin). unfold validItem in Hitems.
    cbn [set_amount quantity] in Hitems. split_andb Hitems. to_Qle. assumption. }
  split; [|split; [exact Hfwd|]].
  - destruct Hcases as [H|(H & _)]; auto.
  - intros Hex. destruct Hcases as [H|H]; [|exact H].
    exfalso. specialize (Hfwd H). apply Exists_exists in Hex.
    destruct Hex as (x & Hx & Hlt). rewrite Forall_forall in Hfwd.
    specialize (Hfwd x Hx). lra.
Qed.

Lemma createInvoice_quantity_below_schema_minimum_witness :
  CreateBody.invoiceValidation tinyQuantityBody = true
  /\ createInvoice [] [(7, 1)%nat] september2025 (Some 1%nat) tinyQuantityBody
     = ([], mkResponse 500 "Failed to create invoice" None).
Proof.
  split; [vm_compute; reflexivity|].
  destruct (createInvoice_quantity_below_schema_minimum
              [] [(7, 1)%nat] september2025 1%nat tinyQuantityBody)
    as (_ & _ & H).
  - vm_compute. reflexivity.
  - vm_compute. reflexivity.
  - destruct H as [_ _].
    + constructor. vm_compute. reflexivity.
    + vm_compute. reflexivity.
Defined.

Lemma createInvoice_created_id
    (db db' : Collection) (customers : Customers) (now : Date)
    (user : option ObjectId) (body : CreateBody.t) (res : Response) (inv : Invoice) :
  createInvoice db customers now user body = (db', res) ->
  invoice res = Some inv ->
  _id inv = fresh_id db.
Proof.
  intros H Hres.
  destruct (createInvoice_outcome _ _ _ _ _ _ _ H)
    as [(_ & uid & number & inv' & _ & _ & Hres' & Hinv & _)|(_ & F & _)];
    [|congruence].
  assert (inv' = inv) as -> by congruence.
  match type of Hinv with
  | inv = set_updatedAt (pre_save_status now (pre_save_totals ?d)) _ =>
      destruct (saved_key now d) as (Hid & _)
  end.
  cbv zeta in Hid. rewrite <- Hinv in Hid. exact Hid.
Qed.

(** X8. Deleting the invoice that was created last gives its number back:
    after a successful [createInvoice] followed by [deleteInvoice] of the
    created invoice by the same caller, the collection is the one before the
    creation and the generator proposes the deleted invoice's number again. *)
Theorem deleted_number_is_proposed_again :
  forall (db db1 : Collection) (customers : Customers) (now : Date)
         (uid : ObjectId) (body : CreateBody.t) (res : Response) (inv : Invoice),
    createInvoice db customers now (Some uid) body = (db1, res) ->
    invoice res = Some inv ->
    deleteInvoice db1 (Some uid) (_id inv)
    = (db, mkResponse 200 "Invoice deleted successfully" None)
    /\ generateInvoiceNumber db now uid = Resolved (invoiceNumber inv).
Proof.
  intros db db1 customers now uid body res inv H Hres.
  pose proof (createInvoice_created_id _ _ _ _ _ _ _ _ H Hres) as Hid.
  destruct (createInvoice_cases _ _ _ _ _ _ _ H)
    as [(_ & inv' & Hres' & Hdb & Hu & Hg & _)|(_ & F & _)]; [|congruence].
  assert (inv' = inv) as -> by congruence.
  assert (uid = userId inv) as Hu' by congruence. split.
  - unfold deleteInvoice. rewrite Hdb.
    rewrite (findOneAndDelete_last db inv uid);
      [reflexivity | apply fresh_id_not_stored; exact Hid | congruence].
  - rewrite Hu'. exact Hg.
Qed.

Lemma deleted_number_is_proposed_again_witness :
  generateInvoiceNumber [] september2025 1%nat
  = Resolved "INV-2025-09-0001".
Proof.
  exact (proj2 (deleted_number_is_proposed_again
                  [] (collectionOf owner1First) [(7, 1)%nat] september2025 1%nat
                  exampleBody
                  (mkResponse 201 "Invoice created successfully"
                     (Some (savedDocument owner1First)))
                  (savedDocument owner1First) eq_refl eq_refl)).
Defined.

Lemma updateInvoice_outcome
    (db db' : Collection) (customers : Customers) (now : Date)
    (user : option ObjectId) (id : ObjectId) (body : UpdateBody.t)
    (res : Response) :
  updateInvoice db customers now user id body = (db', res) ->
  (code res = 200%nat
   /\ exists uid orig doc saved,
        user = Some uid
        /\ Invoice_findOne db id uid = Some orig
        /\ _id doc = _id orig /\ userId doc = userId orig
        /\ invoiceNumber doc = invoiceNumber orig
        /\ issueDate doc = issueDate orig
        /\ (status doc, paidDate doc) = applyStatus now (UpdateBody.status body) orig
        /\ dueDate doc = orDefault (UpdateBody.dueDate body) (dueDate orig)
        /\ save db now doc = Resolved (db', saved)
        /\ invoice res = Some saved)
  \/ ((code res = 400 \/ code res = 401 \/ code res = 404 \/ code res = 500)%nat
      /\ invoice res = None /\ db' = db).
Proof.
  unfold updateInvoice. destruct user as [uid|];
    [|intros H; inversion H; subst; right; cbn; auto].
  destruct (negb (UpdateBody.invoiceUpdateValidation body));
    [intros H; inversion H; subst; right; cbn; auto|].
  destruct (Invoice_findOne db id uid) as [orig|] eqn:F;
    [|intros H; inversion H; subst; right; cbn; auto 6].
  match goal with
  | |- context [if ?c then (db, mkResponse 404 _ _) else _] => destruct c
  end; [intros H; inversion H; subst; right; cbn; auto 6|].
  match goal with
  | |- context [let '(a, b) := ?m in _] => destruct m as [items' totals']
  end.
  destruct (applyStatus now (UpdateBody.status body) orig) as [st pd] eqn:A.
  match goal with
  | |- context [save db now ?d] =>
      set (doc := d); destruct (save db now doc) as [[db2 saved]|e] eqn:S
  end; [|intros H; inversion H; subst; right; cbn; auto 6].
  intros H. inversion H; subst db2 res. clear H. left.
  split; [reflexivity|].
  exists uid, orig, doc, saved. subst doc. cbn. repeat split; auto.
Qed.

Lemma saved_status (now : Date) (doc : Invoice) :
  let saved := set_updatedAt (pre_save_status now (pre_save_totals doc)) (getTime now) in
  status saved = status (pre_save_status now (pre_save_totals doc))
  /\ paidDate saved = paidDate (pre_save_status now (pre_save_totals doc))
  /\ dueDate saved = dueDate doc.
Proof.
  cbv zeta. cbn [set_updatedAt status paidDate dueDate].
  repeat split.
  pose proof (f_equal bf_dueDate
                (pre_save_status_frame now (pre_save_totals doc))) as Hd.
  cbn [businessFields bf_dueDate] in Hd.
  rewrite Hd. apply pre_save_totals_status.
Qed.

Lemma pre_save_status_cases (now : Date) (this : Invoice) :
  (paidDate this <> None ->
   status (pre_save_status now this) = paid
   /\ paidDate (pre_save_status now this) = paidDate this)
  /\ (paidDate this = None ->
      paidDate (pre_save_status now this) = None
      /\ status (pre_save_status now this)
         = if Status_eqb (status this) sent && (dueDate this <? getTime now)
           then overdue else status this).
Proof.
  unfold pre_save_status. split.
  - intros Hp. destruct (paidDate this) as [t|] eqn:P; [|contradiction].
    cbn [truthy negb andb].
    destruct (Status_eqb (status this) paid) eqn:E; cbn [negb andb].
    + apply Status_eqb_eq in E. rewrite Bool.andb_false_r. auto.
    + cbn [set_status status paidDate]. auto.
  - intros Hp. rewrite Hp. cbn [truthy negb andb].
    destruct (Status_eqb (status this) paid) eqn:E; cbn [negb andb].
    + apply Status_eqb_eq in E. cbn [set_paidDate status paidDate].
      rewrite E. cbn. auto.
    + rewrite Bool.andb_true_r.
      rewrite (Bool.andb_comm (dueDate this <? getTime now)).
      destruct (Status_eqb (status this) sent && (dueDate this <? getTime now));
        cbn [set_status status paidDate]; auto.
Qed.

(** X9. An update that carries a status leaves status and paid date in step:
    when [updateInvoice] answers 200 to a request with status [s], the stored
    invoice is [paid] exactly when it has a paid date; for [s = paid] it is
    [paid], with the paid date it had or else the time of the request; for
    any other [s] the paid date is cleared and the status is [s], except that
    [sent] becomes [overdue] when the due date lies before the request. *)
Theorem updateInvoice_status_and_paidDate :
  forall (db db' : Collection) (customers : Customers) (now : Date)
         (uid id : ObjectId) (body : UpdateBody.t) (res : Response)
         (s : Status) (orig : Invoice),
    updateInvoice db customers now (Some uid) id body = (db', res) ->
    code res = 200%nat ->
    Invoice_findOne db id uid = Some orig ->
    UpdateBody.status body = Some s ->
    exists saved,
      invoice res = Some saved
      /\ In saved db'
      /\ (status saved = paid <-> paidDate saved <> None)
      /\ (s = paid ->
          status saved = paid
          /\ paidDate saved = Some (orDefault (paidDate orig) (getTime now)))
      /\ (s <> paid ->
          paidDate saved = None
          /\ ((status saved = s /\ (s <> sent \/ getTime now <= dueDate saved))
              \/ (s = sent /\ status saved = overdue
                  /\ dueDate saved < getTime now))).
Proof.
  intros db db' customers now uid id body res s orig H Hc Hf Hs.
  destruct (updateInvoice_outcome _ _ _ _ _ _ _ _ H)
    as [(_ & u & o & doc & saved & Hu & Hf' & Hid & Hou & Hnum & Hiss & Happ
         & Hdue & Hsave & Hres)|([F|[F|[F|F]]] & _)];
    try (rewrite Hc in F; discriminate F).
  inversion Hu; subst u. assert (o = orig) as -> by congruence.
  rewrite Hs in Happ. exists saved. split; [exact Hres|].
  apply save_resolved in Hsave. destruct Hsave as (_ & Hsaved & _ & Hdb).
  split.
  { rewrite Hdb, write_eq. destruct (isStored db saved) eqn:St.
    - unfold isStored in St. apply existsb_exists in St.
      destruct St as (d & Hd & E). apply in_map_iff. exists d.
      unfold replace_by. rewrite E. auto.
    - apply in_app_iff. right. now left. }
  destruct (saved_status now doc) as (Est & Epd & Edue). cbv zeta in Est, Epd, Edue.
  rewrite <- Hsaved in Est, Epd, Edue.
  destruct (pre_save_totals_status doc) as (Tst & Tpd & Tdue).
  destruct (pre_save_status_cases now (pre_save_totals doc)) as (Cdated & Cnone).
  rewrite Tpd in Cdated. rewrite Tst, Tpd, Tdue in Cnone.
  rewrite <- Est, <- Epd in Cdated. rewrite <- Est, <- Epd in Cnone.
  rewrite Edue. clear Est Epd Tst Tpd Tdue Edue.
  unfold applyStatus in Happ.
  destruct (Status_eqb s paid) eqn:Es.
  - apply Status_eqb_eq in Es.
    assert (status doc = s /\ paidDate doc = Some (orDefault (paidDate orig) (getTime now)))
      as [Hst Hpd].
    { destruct (paidDate orig) as [t|]; cbn [truthy negb andb orDefault] in *;
        injection Happ as A B; auto. }
    destruct Cdated as [A B]; [congruence|]. rewrite A, B, Hpd.
    split; [split; intros; [discriminate | reflexivity]|].
    split; [intros _; split; reflexivity | intros N; contradiction].
  - cbn [andb negb] in Happ. injection Happ as Hst Hpd.
    assert (s <> paid) as Hnp by (intros ->; discriminate Es).
    destruct (Cnone Hpd) as [A B]. rewrite A, B, Hst.
    split.
    { split; [|intros N; contradiction].
      destruct (Status_eqb s sent && (dueDate doc <? getTime now)) eqn:O.
      - discriminate.
      - intros; contradiction. }
    split; [intros; contradiction|]. intros _. split; [reflexivity|].
    destruct (Status_eqb s sent && (dueDate doc <? getTime now)) eqn:O.
    + apply Bool.andb_true_iff in O. destruct O as [O2 O1].
      apply Z.ltb_lt in O1. apply Status_eqb_eq in O2. right. auto.
    + left. split; [reflexivity|].
      apply Bool.andb_false_iff in O. destruct O as [O|O].
      * left. intros ->. discriminate O.
      * right. apply Z.ltb_ge in O. exact O.
Qed.

Lemma updateInvoice_status_and_paidDate_witness :
  exists saved,
    invoice (snd (updateInvoice (collectionOf owner1First) [] september2025
                    (Some 1%nat) 1%nat (statusOnly paid))) = Some saved
    /\ status saved = paid
    /\ paidDate saved = Some (getTime september2025).
Proof.
  destruct (updateInvoice_status_and_paidDate
              (collectionOf owner1First)
              (fst (updateInvoice (collectionOf owner1First) [] september2025
                      (Some 1%nat) 1%nat (statusOnly paid)))
              [] september2025 1%nat 1%nat (statusOnly paid)
              (snd (updateInvoice (collectionOf owner1First) [] september2025
                      (Some 1%nat) 1%nat (statusOnly paid)))
              paid (savedDocument owner1First)
              (surjective_pairing _))
    as (saved & Hres & _ & _ & Hpaid & _).
  - vm_compute. reflexivity.
  - vm_compute. reflexivity.
  - reflexivity.
  - exists saved. destruct (Hpaid eq_refl) as [A B]. auto.
Defined.

Lemma NoDup_map_injective_on {A B : Type} (f : A -> B) (l : list A) (a b : A) :
  NoDup (map f l) -> In a l -> In b l -> f a = f b -> a = b.
Proof.
  induction l as [|x xs IH]; simpl; intros Hn Ha Hb E; [destruct Ha|].
  inversion Hn as [|? ? Hx Hxs]; subst.
  destruct Ha as [->|Ha], Hb as [->|Hb]; auto.
  - exfalso. apply Hx. rewrite E. now apply in_map.
  - exfalso. apply Hx. rewrite <- E. now apply in_map.
Qed.

Lemma Invoice_findOne_some (db : Collection) (id uid : ObjectId) (d : Invoice) :
  Invoice_findOne db id uid = Some d -> In d db /\ _id d = id /\ userId d = uid.
Proof.
  unfold Invoice_findOne. intros H. apply find_some in H. destruct H as [Hin H].
  apply Bool.andb_true_iff in H. destruct H as [A B].
  apply Nat.eqb_eq in A, B. auto.
Qed.

(** X10. [updateInvoice] changes one document at most and cannot move an
    invoice: in a collection the application can build, a request answered
    with 200 replaces the caller's invoice of that id in place, keeping its
    id, owner, invoice number and issue date; every other document, and so
    every invoice of another user, is in the collection afterwards as it was
    and the number of documents is the same; any other answer leaves the
    collection unchanged. *)
Theorem updateInvoice_changes_one_document :
  forall (db db' : Collection) (customers : Customers) (now : Date)
         (uid id : ObjectId) (body : UpdateBody.t) (res : Response),
    reachable db ->
    updateInvoice db customers now (Some uid) id body = (db', res) ->
    (code res = 200%nat ->
     exists orig saved,
       Invoice_findOne db id uid = Some orig
       /\ invoice res = Some saved
       /\ db' = map (replace_by saved) db
       /\ _id saved = id /\ userId saved = uid
       /\ invoiceNumber saved = invoiceNumber orig
       /\ issueDate saved = issueDate orig
       /\ (forall d, In d db -> d <> orig -> In d db')
       /\ (forall d, In d db -> userId d <> uid -> In d db'))
    /\ (code res <> 200%nat -> db' = db).
Proof.
  intros db db' customers now uid id body res Hr H.
  destruct (updateInvoice_outcome _ _ _ _ _ _ _ _ H)
    as [(Hc & u & orig & doc & saved & Hu & Hf & Hid & Hou & Hnum & Hiss & _
         & _ & Hsave & Hres)|(F & _ & Hdb)].
  - split; [|intros N; contradiction]. intros _.
    inversion Hu; subst u.
    destruct (Invoice_findOne_some _ _ _ _ Hf) as (Hin & Eid & Eu).
    apply save_resolved in Hsave. destruct Hsave as (_ & Hsaved & _ & Hdb).
    destruct (saved_key now doc) as (Sid & Su & Sn). cbv zeta in Sid, Su, Sn.
    rewrite <- Hsaved in Sid, Su, Sn.
    assert (issueDate saved = issueDate doc) as Siss.
    { rewrite Hsaved. cbn [set_updatedAt issueDate].
      unfold pre_save_status, pre_save_totals.
      destruct (reduce _ (items doc) 0%Q).
      repeat match goal with
             | |- context [if ?b then _ else _] => destruct b
             end; reflexivity. }
    assert (isStored db saved = true) as St.
    { apply isStored_iff. rewrite Sid, Hid. now apply in_map. }
    rewrite write_eq, St in Hdb.
    assert (forall d, In d db -> d <> orig -> In d db') as Hothers.
    { intros d Hd Hne. rewrite Hdb. apply in_map_iff. exists d.
      split; [|assumption]. unfold replace_by.
      destruct (Nat.eqb_spec (_id d) (_id saved)) as [E|E]; [|reflexivity].
      exfalso. apply Hne.
      apply (NoDup_map_injective_on _id db d orig);
        [apply reachable_NoDup; assumption | assumption | assumption | congruence]. }
    exists orig, saved. repeat split; try assumption; try congruence.
    intros d Hd Hne. apply Hothers; [assumption|]. intros ->. contradiction.
  - split; [|intros _; exact Hdb]. intros Hc. exfalso.
    destruct F as [F|[F|[F|F]]]; rewrite Hc in F; discriminate F.
Qed.

Lemma updateInvoice_changes_one_document_witness :
  exists saved,
    fst (updateInvoice (collectionOf owner1First) [] september2025
           (Some 1%nat) 1%nat (statusOnly sent))
    = map (replace_by saved) (collectionOf owner1First)
    /\ invoiceNumber saved = "INV-2025-09-0001".
Proof.
  destruct (updateInvoice_changes_one_document
              (collectionOf owner1First)
              (fst (updateInvoice (collectionOf owner1First) [] september2025
                      (Some 1%nat) 1%nat (statusOnly sent)))
              [] september2025 1%nat 1%nat (statusOnly sent)
              (snd (updateInvoice (collectionOf owner1First) [] september2025
                      (Some 1%nat) 1%nat (statusOnly sent)))
              reachable_collectionOf_owner1First (surjective_pairing _))
    as (H200 & _).
  destruct H200 as (orig & saved & Hf & _ & Hdb & _ & _ & Hn & _).
  - vm_compute. reflexivity.
  - exists saved. split; [exact Hdb|]. rewrite Hn.
    assert (Some orig = Some (savedDocument owner1First)) as E
        by (rewrite <- Hf; vm_compute; reflexivity).
    inversion E. reflexivity.
Defined.

Lemma findOneAndDelete_spec (db : Collection) (id uid : ObjectId) :
  match findOneAndDelete db id uid with
  | (db', Some d) =>
      exists l1 l2,
        db = (l1 ++ d :: l2)%list /\ db' = (l1 ++ l2)%list
        /\ _id d = id /\ userId d = uid
  | (db', None) =>
      db' = db /\ forall d, In d db -> _id d = id -> userId d <> uid
  end.
Proof.
  induction db as [|x rest IH]; simpl.
  - split; [reflexivity|]. intros d [].
  - destruct (Nat.eqb_spec (_id x) id) as [Ei|Ei];
      destruct (Nat.eqb_spec (userId x) uid) as [Eu|Eu]; cbn [andb].
    + exists [], rest. auto.
    + destruct (findOneAndDelete rest id uid) as [rest' [d|]].
      * destruct IH as (l1 & l2 & -> & -> & A & B).
        exists (x :: l1), l2. auto.
      * destruct IH as [-> IH]. split; [reflexivity|].
        intros d [<-|Hd] E; auto.
    + destruct (findOneAndDelete rest id uid) as [rest' [d|]].
      * destruct IH as (l1 & l2 & -> & -> & A & B).
        exists (x :: l1), l2. auto.
      * destruct IH as [-> IH]. split; [reflexivity|].
        intros d [<-|Hd] E; [congruence | auto].
    + destruct (findOneAndDelete rest id uid) as [rest' [d|]].
      * destruct IH as (l1 & l2 & -> & -> & A & B).
        exists (x :: l1), l2. auto.
      * destruct IH as [-> IH]. split; [reflexivity|].
        intros d [<-|Hd] E; [congruence | auto].
Qed.

(** X11. [deleteInvoice] removes the caller's invoice of the given id and
    nothing else: in a collection the application can build, the answer is
    200 exactly when the caller owns an invoice with that id; then the
    collection afterwards holds the other documents, all of them, and no
    document with that id; otherwise the answer is 404 and the collection is
    unchanged; in particular an invoice of another user is never deleted. *)
Theorem deleteInvoice_removes_own_invoice_only :
  forall (db db' : Collection) (uid id : ObjectId) (res : Response),
    reachable db ->
    deleteInvoice db (Some uid) id = (db', res) ->
    (code res = 200%nat <-> exists d, In d db /\ _id d = id /\ userId d = uid)
    /\ (code res = 200%nat ->
        (forall x, In x db' <-> In x db /\ _id x <> id)
        /\ Invoice_findOne db' id uid = None)
    /\ (code res <> 200%nat -> code res = 404%nat /\ db' = db)
    /\ (forall x, In x db -> userId x <> uid -> In x db').
Proof.
  intros db db' uid id res Hr H. unfold deleteInvoice in H.
  pose proof (findOneAndDelete_spec db id uid) as S.
  destruct (findOneAndDelete db id uid) as [db2 [d|]].
  - inversion H; subst db2 res. clear H. cbn [code].
    destruct S as (l1 & l2 & Edb & Edb' & Ei & Eu).
    destruct (reachable_NoDup db Hr) as [Hids _].
    assert (forall x, In x db' <-> In x db /\ _id x <> id) as Hmem.
    { intros x. rewrite Edb, Edb' in *. rewrite map_app in Hids. simpl in Hids.
      pose proof (NoDup_remove_2 _ _ _ Hids) as Hnot.
      rewrite !in_app_iff. simpl. split.
      - intros Hx. split; [tauto|]. intros E. apply Hnot.
        rewrite Ei, <- E, <- map_app. apply in_map. apply in_app_iff. exact Hx.
      - intros [[Hx|[<-|Hx]] Hne]; auto. contradiction. }
    split; [split; [intros _; exists d; subst db; rewrite in_app_iff; simpl; auto
                   | reflexivity]|].
    split; [intros _; split; [exact Hmem|]|].
    + unfold Invoice_findOne.
      destruct (find _ db') as [y|] eqn:F; [|reflexivity].
      apply find_some in F. destruct F as [Hy F].
      apply Bool.andb_true_iff in F. destruct F as [A _]. apply Nat.eqb_eq in A.
      apply Hmem in Hy. tauto.
    + split; [intros N; contradiction|].
      intros x Hx Hne. apply Hmem. split; [assumption|].
      intros E. apply Hne.
      assert (x = d) as ->; [|assumption].
      apply (NoDup_map_injective_on _id db); try assumption; [|congruence].
      subst db. rewrite in_app_iff. simpl. auto.
  - inversion H; subst db' res. clear H. cbn [code].
    destruct S as [_ Hnone].
    split; [split; [discriminate|]|].
    + intros (d & Hd & Ei & Eu). exfalso. exact (Hnone d Hd Ei Eu).
    + split; [discriminate|]. split; [auto | auto].
Qed.

Lemma deleteInvoice_removes_own_invoice_only_witness :
  deleteInvoice (collectionOf owner1First) (Some 2%nat) 1%nat
  = (collectionOf owner1First, mkResponse 404 "Invoice not found" None).
Proof.
  destruct (deleteInvoice_removes_own_invoice_only
              (collectionOf owner1First)
              (fst (deleteInvoice (collectionOf owner1First) (Some 2%nat) 1%nat))
              2%nat 1%nat
              (snd (deleteInvoice (collectionOf owner1First) (Some 2%nat) 1%nat))
              reachable_collectionOf_owner1First (surjective_pairing _))
    as (_ & _ & H404 & _).
  destruct H404 as [_ Hdb]; [vm_compute; discriminate|].
  rewrite (surjective_pairing (deleteInvoice _ _ _)). rewrite Hdb.
  vm_compute. reflexivity.
Defined.

(** ** Listing invoices: pages and summary *)

Lemma insertNewestFirst_perm (d : Invoice) (l : list Invoice) :
  Permutation (d :: l) (insertNewestFirst d l).
Proof.
  induction l as [|x xs IH]; simpl; [reflexivity|].
  destruct (createdAt x <=? createdAt d); [reflexivity|].
  rewrite perm_swap. now apply perm_skip.
Qed.

Lemma sortNewestFirst_perm (l : list Invoice) :
  Permutation l (sortNewestFirst l).
Proof.
  induction l as [|x xs IH]; simpl; [reflexivity|].
  rewrite <- insertNewestFirst_perm. now apply perm_skip.
Qed.

Lemma insertNewestFirst_sorted (d : Invoice) (l : list Invoice) :
  StronglySorted notOlder l -> StronglySorted notOlder (insertNewestFirst d l).
Proof.
  induction 1 as [|x xs Hs IH Hx]; simpl.
  - constructor; constructor.
  - destruct (createdAt x <=? createdAt d) eqn:E.
    + apply Z.leb_le in E. constructor; [constructor; assumption|].
      constructor; [exact E|].
      rewrite Forall_forall in *. intros y Hy. specialize (Hx y Hy).
      unfold notOlder in *. lia.
    + apply Z.leb_gt in E. constructor; [assumption|].
      rewrite Forall_forall in *. intros y Hy.
      apply (Permutation_in _ (Permutation_sym (insertNewestFirst_perm d xs))) in Hy.
      destruct Hy as [<-|Hy]; [unfold notOlder; lia | auto].
Qed.

Lemma sortNewestFirst_sorted (l : list Invoice) :
  StronglySorted notOlder (sortNewestFirst l).
Proof.
  induction l as [|x xs IH]; simpl; [constructor|].
  apply insertNewestFirst_sorted. exact IH.
Qed.

Lemma In_firstn {A : Type} (n : nat) (l : list A) (x : A) :
  In x (firstn n l) -> In x l.
Proof.
  intros H. rewrite <- (firstn_skipn n l). apply in_or_app. now left.
Qed.

Lemma In_skipn {A : Type} (n : nat) (l : list A) (x : A) :
  In x (skipn n l) -> In x l.
Proof.
  intros H. rewrite <- (firstn_skipn n l). apply in_or_app. now right.
Qed.

Lemma StronglySorted_skipn {A : Type} (R : A -> A -> Prop) (n : nat) (l : list A) :
  StronglySorted R l -> StronglySorted R (skipn n l).
Proof.
  revert l. induction n as [|n IH]; intros l H; [exact H|].
  destruct l as [|x xs]; [constructor|]. simpl. apply IH.
  inversion H; assumption.
Qed.

Lemma StronglySorted_firstn {A : Type} (R : A -> A -> Prop) (n : nat) (l : list A) :
  StronglySorted R l -> StronglySorted R (firstn n l).
Proof.
  revert l. induction n as [|n IH]; intros l H; [constructor|].
  destruct l as [|x xs]; [constructor|]. simpl.
  inversion H as [|? ? Hs Hx]; subst. constructor; [apply IH; assumption|].
  rewrite Forall_forall in *. intros y Hy. apply Hx.
  eapply In_firstn. exact Hy.
Qed.

Lemma getAllInvoices_page
    (regex : Regex) (cursor : Cursor) (db : Collection) (uid : ObjectId)
    (q : Query.t) (p l : Z) (matches : Invoice -> bool) :
  skipsAndLimits cursor ->
  pageNumOf q = JS.Int p -> limitNumOf q = JS.Int l -> 1 <= p -> 1 <= l ->
  listFilter regex uid q = Some matches ->
  getAllInvoices regex cursor db (Some uid) q
  = ListOk
      (firstn (Z.to_nat l)
         (skipn (Z.to_nat ((p - 1) * l)) (sortNewestFirst (filter matches db))))
      (mkPagination (JS.Int p)
         (Pages (- (- Z.of_nat (List.length (filter matches db)) / l)))
         (Z.of_nat (List.length (filter matches db)))
         (p <? - (- Z.of_nat (List.length (filter matches db)) / l))
         (1 <? p))
      (summarize (aggregateByStatus uid db)).
Proof.
  intros Hc Hp Hl Hp1 Hl1 Hf. unfold getAllInvoices.
  rewrite Hp, Hl, Hf. cbn [Num_sub Num_mul].
  rewrite (Hc ((p - 1) * l) l) by nia.
  unfold ceilDiv. destruct (Z.eqb_spec l 0); [lia|]. reflexivity.
Qed.

Lemma listFilter_sound (regex : Regex) (uid : ObjectId) (q : Query.t)
    (matches : Invoice -> bool) (d : Invoice) :
  listFilter regex uid q = Some matches -> matches d = true ->
  userId d = uid /\ statusMatches q d = true.
Proof.
  unfold listFilter. destruct (nonEmpty (Query.search q)).
  - destruct (regex _) as [m|]; [|discriminate].
    intros H; inversion H; subst. intros E. split_andb E.
    apply Nat.eqb_eq in E. auto.
  - intros H; inversion H; subst. intros E. split_andb E.
    apply Nat.eqb_eq in E. auto.
Qed.

(** X12. A page of the invoice list: for page [p >= 1] and limit [l >= 1]
    (given or defaulted to 1 and 10), [getAllInvoices] returns the invoices at
    positions [(p-1)*l] to [p*l - 1] of the matching invoices ordered newest
    first; every returned invoice is stored, belongs to the caller and has
    the requested status when one is requested; there are at most [l] of
    them and they are ordered newest first. *)
Theorem getAllInvoices_returns_own_page :
  forall (regex : Regex) (cursor : Cursor) (db : Collection) (uid : ObjectId)
         (q : Query.t) (p l : Z) (matches : Invoice -> bool),
    skipsAndLimits cursor ->
    pageNumOf q = JS.Int p -> limitNumOf q = JS.Int l -> 1 <= p -> 1 <= l ->
    listFilter regex uid q = Some matches ->
    exists invoices pagination summary,
      getAllInvoices regex cursor db (Some uid) q
      = ListOk invoices pagination summary
      /\ invoices
         = firstn (Z.to_nat l)
             (skipn (Z.to_nat ((p - 1) * l))
                (sortNewestFirst (filter matches db)))
      /\ (List.length invoices <= Z.to_nat l)%nat
      /\ (forall d, In d invoices ->
                    In d db /\ userId d = uid /\ statusMatches q d = true)
      /\ StronglySorted notOlder invoices.
Proof.
  intros regex cursor db uid q p l matches Hc Hp Hl Hp1 Hl1 Hf.
  eexists _, _, _. split; [apply (getAllInvoices_page regex cursor db uid q p l);
                            eassumption|].
  split; [reflexivity|]. split; [apply firstn_le_length|]. split.
  - intros d Hd. apply In_firstn, In_skipn in Hd.
    apply (Permutation_in _ (Permutation_sym (sortNewestFirst_perm _))) in Hd.
    apply filter_In in Hd. destruct Hd as [Hin Hm].
    split; [assumption|]. eapply listFilter_sound; eassumption.
  - apply StronglySorted_firstn, StronglySorted_skipn, sortNewestFirst_sorted.
Qed.

Lemma exampleCursor_skipsAndLimits : skipsAndLimits exampleCursor.
Proof.
  intros s n l Hs Hn. unfold exampleCursor.
  destruct (Z.leb_spec 0 s); [|lia]. destruct (Z.leb_spec 1 n); [|lia].
  reflexivity.
Defined.

Lemma getAllInvoices_returns_own_page_witness :
  exists invoices pagination summary,
    getAllInvoices noRegex exampleCursor threeInvoices (Some 1%nat) secondPageOfTwo
    = ListOk invoices pagination summary
    /\ map invoiceNumber invoices = ["INV-2025-09-0002"].
Proof.
  destruct (getAllInvoices_returns_own_page
              noRegex exampleCursor threeInvoices 1%nat secondPageOfTwo 2 2
              (fun d => (userId d =? 1)%nat && statusMatches secondPageOfTwo d)
              exampleCursor_skipsAndLimits)
    as (i & pg & s & H & Hi & _); try reflexivity; try lia.
  exists i, pg, s. split; [exact H|]. rewrite Hi. vm_compute. reflexivity.
Defined.

(** X13. The pagination block: for page [p >= 1] and limit [l >= 1], [total]
    is the number of matching invoices whatever the page, [pages] is the
    least number of pages of [l] that hold them all, [hasNext] says exactly
    that matching invoices remain after this page, [hasPrev] that this is not
    the first page, and the page holds [min l (total - (p-1)*l)] invoices,
    none beyond the last page. *)
Theorem getAllInvoices_pagination :
  forall (regex : Regex) (cursor : Cursor) (db : Collection) (uid : ObjectId)
         (q : Query.t) (p l : Z) (matches : Invoice -> bool),
    skipsAndLimits cursor ->
    pageNumOf q = JS.Int p -> limitNumOf q = JS.Int l -> 1 <= p -> 1 <= l ->
    listFilter regex uid q = Some matches ->
    exists invoices n summary,
      getAllInvoices regex cursor db (Some uid) q
      = ListOk invoices
          (mkPagination (JS.Int p) (Pages n)
             (Z.of_nat (List.length (filter matches db)))
             (p * l <? Z.of_nat (List.length (filter matches db)))
             (1 <? p))
          summary
      /\ (n - 1) * l < Z.of_nat (List.length (filter matches db)) <= n * l
      /\ Z.of_nat (List.length invoices)
         = Z.max 0 (Z.min l (Z.of_nat (List.length (filter matches db))
                             - (p - 1) * l))
      /\ (n < p -> invoices = []).
Proof.
  intros regex cursor db uid q p l matches Hc Hp Hl Hp1 Hl1 Hf.
  rewrite (getAllInvoices_page regex cursor db uid q p l matches) by assumption.
  set (total := Z.of_nat (List.length (filter matches db))).
  set (n := - (- total / l)).
  assert (0 <= total) as Ht by (unfold total; lia).
  assert ((n - 1) * l < total <= n * l) as Hn.
  { unfold n. pose proof (Z.div_mod (- total) l ltac:(lia)) as E.
    pose proof (Z.mod_pos_bound (- total) l ltac:(lia)) as B. nia. }
  assert ((p <? n) = (p * l <? total)) as Hnext.
  { destruct (Z.ltb_spec p n), (Z.ltb_spec (p * l) total); try reflexivity; nia. }
  rewrite Hnext.
  assert (List.length (sortNewestFirst (filter matches db))
          = List.length (filter matches db)) as Hlen
      by (symmetry; apply Permutation_length, sortNewestFirst_perm).
  eexists _, n, _. split; [reflexivity|]. split; [exact Hn|]. split.
  - rewrite length_firstn, length_skipn, Hlen. fold total.
    unfold total in *. nia.
  - intros Hlt. rewrite skipn_all2; [apply firstn_nil|].
    rewrite Hlen. unfold total in *. nia.
Qed.

Lemma getAllInvoices_pagination_witness :
  exists invoices summary,
    getAllInvoices noRegex exampleCursor threeInvoices (Some 1%nat) secondPageOfTwo
    = ListOk invoices (mkPagination (JS.Int 2) (Pages 2) 3 false true) summary.
Proof.
  destruct (getAllInvoices_pagination
              noRegex exampleCursor threeInvoices 1%nat secondPageOfTwo 2 2
              (fun d => (userId d =? 1)%nat && statusMatches secondPageOfTwo d)
              exampleCursor_skipsAndLimits)
    as (i & n & s & H & Hn & _); try reflexivity; try lia.
  assert (Z.of_nat (List.length
            (filter (fun d => (userId d =? 1)%nat
                              && statusMatches secondPageOfTwo d) threeInvoices))
          = 3) as E by (vm_compute; reflexivity).
  rewrite E in H, Hn. assert (n = 2) as -> by lia.
  exists i, s. exact H.
Defined.

Lemma sumTotals_from (l : list Invoice) (a : Q) :
  (fold_left (fun sum d => sum + total d) l a == a + sumTotals l)%Q.
Proof.
  unfold sumTotals. revert a. induction l as [|x xs IH]; intros a; simpl.
  - lra.
  - rewrite (IH (a + total x)%Q), (IH (0 + total x)%Q). lra.
Qed.

Lemma sumTotals_cons (x : Invoice) (l : list Invoice) :
  (sumTotals (x :: l) == total x + sumTotals l)%Q.
Proof.
  unfold sumTotals at 1. simpl. rewrite sumTotals_from. lra.
Qed.

(** The caller's invoices split into the five statuses. *)
Lemma ownedBy_by_status (uid : ObjectId) (db : Collection) :
  Z.of_nat (List.length (ownedBy uid db))
  = Z.of_nat (List.length (inStatus uid db draft))
    + Z.of_nat (List.length (inStatus uid db sent))
    + Z.of_nat (List.length (inStatus uid db paid))
    + Z.of_nat (List.length (inStatus uid db overdue))
    + Z.of_nat (List.length (inStatus uid db cancelled))
  /\ (sumTotals (ownedBy uid db)
      == sumTotals (inStatus uid db draft) + sumTotals (inStatus uid db sent)
         + sumTotals (inStatus uid db paid) + sumTotals (inStatus uid db overdue)
         + sumTotals (inStatus uid db cancelled))%Q.
Proof.
  unfold ownedBy, inStatus. induction db as [|d rest [IHn IHs]].
  - split; [reflexivity | vm_compute; reflexivity].
  - cbn [filter]. destruct (userId d =? uid)%nat; cbn [andb]; [|auto].
    destruct (status d); cbn [Status_eqb];
      (split; [cbn [List.length]; lia | rewrite !sumTotals_cons, IHs; lra]).
Qed.

Lemma summarize_aggregate (uid : ObjectId) (db : Collection) :
  let s := summarize (aggregateByStatus uid db) in
  Summary.total s
  = Z.of_nat (List.length (inStatus uid db draft))
    + Z.of_nat (List.length (inStatus uid db sent))
    + Z.of_nat (List.length (inStatus uid db paid))
    + Z.of_nat (List.length (inStatus uid db overdue))
    + Z.of_nat (List.length (inStatus uid db cancelled))
  /\ Summary.draft s = Z.of_nat (List.length (inStatus uid db draft))
  /\ Summary.sent s = Z.of_nat (List.length (inStatus uid db sent))
  /\ Summary.paid s = Z.of_nat (List.length (inStatus uid db paid))
  /\ Summary.overdue s = Z.of_nat (List.length (inStatus uid db overdue))
  /\ Summary.cancelled s
     = match inStatus uid db cancelled with
       | [] => None
       | l => Some (Z.of_nat (List.length l))
       end
  /\ (Summary.totalRevenue s
      == sumTotals (inStatus uid db draft) + sumTotals (inStatus uid db sent)
         + sumTotals (inStatus uid db paid) + sumTotals (inStatus uid db overdue)
         + sumTotals (inStatus uid db cancelled))%Q
  /\ (Summary.paidRevenue s == sumTotals (inStatus uid db paid))%Q.
Proof.
  cbv zeta. unfold summarize, aggregateByStatus. cbn [flat_map].
  unfold groupOf.
  change (fun sum d => (sum + total d)%Q)
    with (fun sum d => (sum + total d)%Q).
  repeat match goal with
         | |- context [filter (fun d => (userId d =? uid)%nat
                                        && Status_eqb (status d) ?s) db] =>
             change (filter (fun d => (userId d =? uid)%nat
                                      && Status_eqb (status d) s) db)
               with (inStatus uid db s)
         end.
  repeat match goal with
         | |- context [fold_left (fun sum d => (sum + total d)%Q) ?l 0%Q] =>
             change (fold_left (fun sum d => (sum + total d)%Q) l 0%Q)
               with (sumTotals l)
         end.
  remember (inStatus uid db draft) as l1.
  remember (inStatus uid db sent) as l2.
  remember (inStatus uid db paid) as l3.
  remember (inStatus uid db overdue) as l4.
  remember (inStatus uid db cancelled) as l5.
  clear.
  assert (sumTotals [] == 0)%Q as Z0 by (vm_compute; reflexivity).
  destruct l1 as [|x1 l1]; destruct l2 as [|x2 l2]; destruct l3 as [|x3 l3];
    destruct l4 as [|x4 l4]; destruct l5 as [|x5 l5];
    cbn [app fold_left addGroup group_id group_count group_totalAmount
         Status_eqb Summary.total Summary.draft Summary.sent Summary.paid
         Summary.overdue Summary.cancelled Summary.totalRevenue
         Summary.paidRevenue];
    change (List.length (@nil Invoice)) with O;
    repeat split; try reflexivity; try lia; try (rewrite ?Z0; lra).
Qed.

(** X14. The summary block does not depend on the query: whatever page,
    limit, status filter or search term is sent, it counts all invoices of
    the caller, [total] being the sum of the five per-status counts, with the
    key [cancelled] present only when the caller has a cancelled invoice;
    [paidRevenue] is the sum of the totals of the caller's paid invoices,
    and [totalRevenue] adds up the per-status sums of the totals of all the
    caller's invoices, drafts and cancelled ones included. *)
Theorem getAllInvoices_summary :
  forall (regex : Regex) (cursor : Cursor) (db : Collection) (uid : ObjectId)
         (q : Query.t) (invoices : list Invoice) (pagination : Pagination)
         (summary : Summary.t),
    getAllInvoices regex cursor db (Some uid) q
    = ListOk invoices pagination summary ->
    Summary.total summary = Z.of_nat (List.length (ownedBy uid db))
    /\ Summary.total summary
       = Summary.draft summary + Summary.sent summary + Summary.paid summary
         + Summary.overdue summary + orDefault (Summary.cancelled summary) 0
    /\ Summary.draft summary = Z.of_nat (List.length (inStatus uid db draft))
    /\ Summary.sent summary = Z.of_nat (List.length (inStatus uid db sent))
    /\ Summary.paid summary = Z.of_nat (List.length (inStatus uid db paid))
    /\ Summary.overdue summary = Z.of_nat (List.length (inStatus uid db overdue))
    /\ (Summary.cancelled summary = None <-> inStatus uid db cancelled = [])
    /\ (Summary.paidRevenue summary == sumTotals (inStatus uid db paid))%Q
    /\ (Summary.totalRevenue summary
        == sumTotals (inStatus uid db draft) + sumTotals (inStatus uid db sent)
           + sumTotals (inStatus uid db paid)
           + sumTotals (inStatus uid db overdue)
           + sumTotals (inStatus uid db cancelled))%Q.
Proof.
  intros regex cursor db uid q invoices pagination summary H.
  assert (summary = summarize (aggregateByStatus uid db)) as ->.
  { unfold getAllInvoices in H. destruct (listFilter regex uid q); [|discriminate].
    destruct (cursor _ _ _); [|discriminate]. inversion H. reflexivity. }
  destruct (summarize_aggregate uid db)
    as (Ht & Hd & Hs & Hp & Ho & Hc & Hrev & Hpaid). cbv zeta in *.
  destruct (ownedBy_by_status uid db) as [On _].
  assert (orDefault (Summary.cancelled (summarize (aggregateByStatus uid db))) 0
          = Z.of_nat (List.length (inStatus uid db cancelled))) as Hc0.
  { rewrite Hc. destruct (inStatus uid db cancelled); reflexivity. }
  split; [lia|]. split; [lia|]. repeat (split; [assumption|]).
  split.
  { rewrite Hc. destruct (inStatus uid db cancelled); split; intros; congruence. }
  split; [exact Hpaid | exact Hrev].
Qed.

Lemma getAllInvoices_summary_witness :
  exists invoices pagination summary,
    getAllInvoices noRegex exampleCursor threeInvoices (Some 1%nat) secondPageOfTwo
    = ListOk invoices pagination summary
    /\ Summary.total summary = 3.
Proof.
  destruct (getAllInvoices noRegex exampleCursor threeInvoices (Some 1%nat)
              secondPageOfTwo) as [i pg s|c m] eqn:E.
  - exists i, pg, s. split; [reflexivity|].
    destruct (getAllInvoices_summary _ _ _ _ _ _ _ _ E) as (Ht & _).
    rewrite Ht. vm_compute. reflexivity.
  - vm_compute in E. discriminate E.
Defined.



(** ** The invoice counter and the quota *)

Lemma duplicateInvoice_reachable
    (db : Collection) (now : Date) (user : option ObjectId) (id : ObjectId) :
  reachable db -> reachable (fst (duplicateInvoice db now user id)).
Proof.
  intros Hr. unfold duplicateInvoice. destruct user as [uid|]; [|exact Hr].
  destruct (Invoice_findOne db id uid); [|exact Hr].
  rewrite generateInvoiceNumber_eq. cbn [await].
  match goal with
  | |- context [save db now ?d] =>
      destruct (save db now d) as [[db2 inv]|e] eqn:S
  end; [|exact Hr].
  cbn [fst]. eapply reachable_save; eassumption.
Qed.

Lemma updateInvoice_reachable
    (db : Collection) (customers : Customers) (now : Date)
    (user : option ObjectId) (id : ObjectId) (body : UpdateBody.t) :
  reachable db -> reachable (fst (updateInvoice db customers now user id body)).
Proof.
  intros Hr.
  destruct (updateInvoice db customers now user id body) as [db' res] eqn:U.
  destruct (updateInvoice_outcome _ _ _ _ _ _ _ _ U)
    as [(_ & u & orig & doc & saved & _ & _ & _ & _ & _ & _ & _ & _ & Hsave & _)
       |(_ & _ & ->)]; cbn [fst]; [|exact Hr].
  eapply reachable_save; eassumption.
Qed.

Lemma deleteInvoice_reachable
    (db : Collection) (user : option ObjectId) (id : ObjectId) :
  reachable db -> reachable (fst (deleteInvoice db user id)).
Proof.
  intros Hr. unfold deleteInvoice. destruct user as [uid|]; [|exact Hr].
  pose proof (reachable_delete db id uid Hr) as Hd.
  destruct (findOneAndDelete db id uid) as [db2 [d|]]; [exact Hd | exact Hr].
Qed.

Lemma duplicateInvoice_cases
    (db db' : Collection) (now : Date) (uid id : ObjectId) (res : Response) :
  duplicateInvoice db now (Some uid) id = (db', res) ->
  (code res = 201%nat
   /\ exists inv, db' = (db ++ [inv])%list /\ userId inv = uid)
  \/ (code res <> 201%nat /\ db' = db).
Proof.
  unfold duplicateInvoice.
  destruct (Invoice_findOne db id uid) as [orig|] eqn:F;
    [|intros H; inversion H; subst; right; cbn; split; [discriminate|reflexivity]].
  rewrite generateInvoiceNumber_eq. cbn [await].
  match goal with
  | |- context [save db now ?d] =>
      set (doc := d); destruct (save db now doc) as [[db2 inv]|e] eqn:S
  end; [|intros H; inversion H; subst; right; cbn;
         split; [discriminate|reflexivity]].
  intros H. inversion H; subst db2 res. clear H. left.
  split; [reflexivity|].
  apply save_resolved in S. destruct S as (_ & Hinv & _ & Hdb).
  destruct (saved_key now doc) as (Hid & Hu & _). cbv zeta in Hid, Hu.
  rewrite <- Hinv in Hid, Hu.
  destruct (Invoice_findOne_some _ _ _ _ F) as (_ & _ & Eu).
  exists inv. split.
  - rewrite Hdb, write_eq, (fresh_id_not_stored db inv Hid). reflexivity.
  - rewrite Hu. exact Eu.
Qed.

Lemma ownedBy_app (v : ObjectId) (db : Collection) (x : Invoice) :
  Z.of_nat (List.length (ownedBy v (db ++ [x])%list))
  = Z.of_nat (List.length (ownedBy v db))
    + (if (userId x =? v)%nat then 1 else 0).
Proof.
  unfold ownedBy. rewrite filter_app, length_app. cbn [filter].
  destruct (userId x =? v)%nat; cbn [List.length]; lia.
Qed.

Lemma ownedBy_remove (v : ObjectId) (l1 l2 : list Invoice) (x : Invoice) :
  Z.of_nat (List.length (ownedBy v (l1 ++ l2)%list))
  = Z.of_nat (List.length (ownedBy v (l1 ++ x :: l2)%list))
    - (if (userId x =? v)%nat then 1 else 0).
Proof.
  unfold ownedBy. rewrite !filter_app, !length_app. cbn [filter].
  destruct (userId x =? v)%nat; cbn [List.length]; lia.
Qed.

Lemma ownedBy_replace (v : ObjectId) (db : Collection) (saved : Invoice) :
  (forall d, In d db -> _id d = _id saved -> userId d = userId saved) ->
  List.length (ownedBy v (map (replace_by saved) db))
  = List.length (ownedBy v db).
Proof.
  unfold ownedBy. induction db as [|x xs IH]; intros H; [reflexivity|].
  cbn [map filter]. unfold replace_by at 1.
  destruct (Nat.eqb_spec (_id x) (_id saved)) as [E|E].
  - rewrite <- (H x (or_introl eq_refl) E).
    destruct (userId x =? v)%nat; cbn [List.length];
      rewrite IH; auto; intros d Hd; apply H; now right.
  - destruct (userId x =? v)%nat; cbn [List.length];
      rewrite IH; auto; intros d Hd; apply H; now right.
Qed.

Lemma In_incInvoiceCount (users : Users) (uid : ObjectId) (delta : Z) (u' : User) :
  In u' (incInvoiceCount users uid delta) ->
  exists u, In u users /\ user_id u' = user_id u /\ plan u' = plan u
            /\ maxInvoices u' = maxInvoices u
            /\ invoiceCount u'
               = invoiceCount u + (if (user_id u =? uid)%nat then delta else 0).
Proof.
  unfold incInvoiceCount. rewrite in_map_iff. intros (u & E & Hu).
  exists u. split; [assumption|].
  destruct (user_id u =? uid)%nat; subst u'; cbn; repeat split; lia.
Qed.

(** How one request changes the collection, whatever the users. *)
Lemma handle_effect (customers : Customers) (users : Users) (db : Collection)
    (r : Request) :
  reachable db ->
  let st' := fst (handle customers (users, db) r) in
  reachable (snd st')
  /\ exists uid delta,
       (forall v, Z.of_nat (List.length (ownedBy v (snd st')))
                  = Z.of_nat (List.length (ownedBy v db))
                    + (if (uid =? v)%nat then delta else 0))
       /\ fst st' = (if delta =? 0 then users else incInvoiceCount users uid delta)
       /\ (delta = 0 \/ delta = 1 \/ delta = -1)
       /\ (delta = 1 ->
           exists u, User_findById users uid = Some u
                     /\ checkInvoiceLimit (Some u) = Next).
Proof.
  intros Hr. cbv zeta.
  assert (forall uid : ObjectId, reachable db /\
            exists uid' delta,
              (forall v, Z.of_nat (List.length (ownedBy v db))
                         = Z.of_nat (List.length (ownedBy v db))
                           + (if (uid' =? v)%nat then delta else 0))
              /\ users = (if delta =? 0 then users
                          else incInvoiceCount users uid' delta)
              /\ (delta = 0 \/ delta = 1 \/ delta = -1)
              /\ (delta = 1 ->
                  exists u, User_findById users uid' = Some u
                            /\ checkInvoiceLimit (Some u) = Next)) as Hsame.
  { intros uid. split; [exact Hr|]. exists uid, 0. split; [intros v|];
      [destruct (uid =? v)%nat; lia|].
    split; [reflexivity|]. split; [auto|]. intros N; discriminate N. }
  unfold handle. destruct r as [uid now body|uid now id body|uid id|uid now id].
  - destruct (User_findById users uid) as [u|] eqn:Fu; [|exact (Hsame uid)].
    destruct (checkInvoiceLimit (Some u)) eqn:L; [|exact (Hsame uid)].
    pose proof (createInvoice_reachable db customers now (Some uid) body Hr) as Hr'.
    destruct (createInvoice db customers now (Some uid) body) as [db' res] eqn:C.
    cbn [fst] in Hr'. unfold counting.
    destruct (createInvoice_outcome _ _ _ _ _ _ _ C)
      as [(Hc & uid' & number & inv & Hu & _ & _ & Hinv & Hdb)|(F & _ & Hdb)].
    + rewrite Hc. cbn [Nat.eqb fst snd]. split; [exact Hr'|].
      exists uid, 1. split.
      * intros v. rewrite Hdb, ownedBy_app.
        match type of Hinv with
        | inv = set_updatedAt (pre_save_status now (pre_save_totals ?d)) _ =>
            destruct (saved_key now d) as (_ & Hou & _)
        end.
        cbv zeta in Hou. rewrite <- Hinv in Hou. cbn [userId] in Hou.
        rewrite Hou. inversion Hu. reflexivity.
      * split; [reflexivity|]. split; [auto|]. intros _. exists u. auto.
    + assert ((code res =? 201)%nat = false) as ->.
      { apply Nat.eqb_neq. destruct F as [F|[F|[F|F]]]; rewrite F; discriminate. }
      subst db'. exact (Hsame uid).
  - destruct (User_findById users uid) as [u|] eqn:Fu; [|exact (Hsame uid)].
    pose proof (updateInvoice_reachable db customers now (Some uid) id body Hr)
      as Hr'.
    destruct (updateInvoice db customers now (Some uid) id body) as [db' res] eqn:U.
    cbn [fst snd] in *. split; [exact Hr'|].
    exists uid, 0. split; [|split; [reflexivity|split; [auto|discriminate]]].
    intros v.
    destruct (updateInvoice_outcome _ _ _ _ _ _ _ _ U)
      as [(_ & u' & orig & doc & saved & Hu & Hf & Hid & Hou & _ & _ & _ & _
           & Hsave & _)|(_ & _ & ->)];
      [|destruct (uid =? v)%nat; lia].
    destruct (Invoice_findOne_some _ _ _ _ Hf) as (Hin & Eid & Eu).
    apply save_resolved in Hsave. destruct Hsave as (_ & Hsaved & _ & Hdb).
    destruct (saved_key now doc) as (Sid & Su & _). cbv zeta in Sid, Su.
    rewrite <- Hsaved in Sid, Su.
    assert (isStored db saved = true) as St
        by (apply isStored_iff; rewrite Sid, Hid; now apply in_map).
    rewrite Hdb, write_eq, St, ownedBy_replace.
    + destruct (uid =? v)%nat; lia.
    + intros d Hd E.
      assert (d = orig) as ->; [|congruence].
      apply (NoDup_map_injective_on _id db);
        [apply reachable_NoDup; assumption | assumption | assumption | congruence].
  - destruct (User_findById users uid) as [u|] eqn:Fu; [|exact (Hsame uid)].
    pose proof (deleteInvoice_reachable db (Some uid) id Hr) as Hr'.
    unfold deleteInvoice in *.
    pose proof (findOneAndDelete_spec db id uid) as S.
    destruct (findOneAndDelete db id uid) as [db2 [d|]]; cbn [fst] in Hr'.
    + unfold counting. cbn [code Nat.eqb fst snd]. split; [exact Hr'|].
      destruct S as (l1 & l2 & -> & -> & _ & Eu).
      exists uid, (-1). split.
      * intros v. rewrite (ownedBy_remove v l1 l2 d). rewrite Eu.
        destruct (uid =? v)%nat; lia.
      * split; [reflexivity|]. split; [auto|]. intros N; discriminate N.
    + exact (Hsame uid).
  - destruct (User_findById users uid) as [u|] eqn:Fu; [|exact (Hsame uid)].
    destruct (checkInvoiceLimit (Some u)) eqn:L; [|exact (Hsame uid)].
    pose proof (duplicateInvoice_reachable db now (Some uid) id Hr) as Hr'.
    destruct (duplicateInvoice db now (Some uid) id) as [db' res] eqn:C.
    cbn [fst] in Hr'. unfold counting.
    destruct (duplicateInvoice_cases _ _ _ _ _ _ C)
      as [(Hc & inv & Hdb & Hu)|(Hc & Hdb)].
    + rewrite Hc. cbn [Nat.eqb fst snd]. split; [exact Hr'|].
      exists uid, 1. split.
      * intros v. rewrite Hdb, ownedBy_app, Hu. reflexivity.
      * split; [reflexivity|]. split; [auto|]. intros _. exists u. auto.
    + apply Nat.eqb_neq in Hc. rewrite Hc. subst db'. exact (Hsame uid).
Qed.

Lemma handle_counted (customers : Customers) (st : Users * Collection)
    (r : Request) :
  counted st -> counted (fst (handle customers st r)).
Proof.
  destruct st as [users db]. intros [Hr Hcount]. cbn [fst snd] in *.
  destruct (handle_effect customers users db r Hr)
    as (Hr' & uid & delta & Hown & Husers & _). cbv zeta in *.
  split; [exact Hr'|]. intros u' Hu'. rewrite Husers in Hu'.
  destruct (Z.eqb_spec delta 0) as [->|Hd].
  - rewrite Hown, (Hcount u' Hu'). destruct (uid =? user_id u')%nat; lia.
  - apply In_incInvoiceCount in Hu'.
    destruct Hu' as (u & Hu & Eid & _ & _ & Ec).
    rewrite Ec, Hown, Eid, (Hcount u Hu), (Nat.eqb_sym uid). reflexivity.
Qed.

(** X16. The invoice counter is exact: when every user's [invoiceCount]
    equals the number of invoices the user owns, it still does after any
    sequence of create, update, delete and duplicate requests, whether they
    succeed or fail and whoever sends them. *)
Theorem invoiceCount_tracks_owned_invoices :
  forall (customers : Customers) (requests : list Request)
         (st : Users * Collection),
    counted st -> counted (run customers st requests).
Proof.
  intros customers requests. unfold run.
  induction requests as [|r rest IH]; intros st H; [exact H|].
  cbn [fold_left]. apply IH. apply handle_counted. exact H.
Qed.

Lemma invoiceCount_tracks_owned_invoices_witness :
  counted (run [(7, 1)%nat] ([freeUser], []) twoPosts).
Proof.
  apply (invoiceCount_tracks_owned_invoices [(7, 1)%nat] twoPosts ([freeUser], [])).
  split; [apply reachable_empty|].
  intros u [<-|[]]. reflexivity.
Defined.

Lemma incInvoiceCount_ids (users : Users) (uid : ObjectId) (delta : Z) :
  map user_id (incInvoiceCount users uid delta) = map user_id users.
Proof.
  unfold incInvoiceCount. rewrite map_map. apply map_ext.
  intros u. destruct (user_id u =? uid)%nat; reflexivity.
Qed.

Lemma User_findById_unique (users : Users) (uid : ObjectId) (u v : User) :
  NoDup (map user_id users) ->
  User_findById users uid = Some u ->
  In v users -> user_id v = uid -> v = u.
Proof.
  intros Hnd Hf Hv Ev. unfold User_findById in Hf.
  destruct (find_some _ _ Hf) as [Hu Eu]. apply Nat.eqb_eq in Eu.
  apply (NoDup_map_injective_on user_id users); auto. congruence.
Qed.

Lemma handle_withinQuota (customers : Customers) (st : Users * Collection)
    (r : Request) :
  reachable (snd st) -> withinQuota (fst st) ->
  withinQuota (fst (fst (handle customers st r))).
Proof.
  destruct st as [users db]. cbn [fst snd]. intros Hr [Hnd Hq].
  destruct (handle_effect customers users db r Hr)
    as (_ & uid & delta & _ & Husers & Hdelta & Hnext). cbv zeta in *.
  rewrite Husers. destruct (Z.eqb_spec delta 0) as [E|E]; [split; assumption|].
  split; [rewrite incInvoiceCount_ids; exact Hnd|].
  intros u' Hu' Hfree. apply In_incInvoiceCount in Hu'.
  destruct Hu' as (u & Hu & _ & Ep & Em & Ec). rewrite Ec, Em.
  rewrite Ep in Hfree. specialize (Hq u Hu Hfree).
  destruct (Nat.eqb_spec (user_id u) uid) as [Eid|_]; [|lia].
  destruct Hdelta as [D|[D|D]]; [contradiction| |lia].
  destruct (Hnext D) as (w & Hw & Hlim).
  assert (u = w) as -> by (eapply User_findById_unique; eassumption).
  unfold checkInvoiceLimit in Hlim. rewrite Hfree in Hlim.
  destruct (Z.leb_spec (maxInvoices w) (invoiceCount w)); [discriminate Hlim|lia].
Qed.

Lemma run_invariants (customers : Customers) (requests : list Request)
    (st : Users * Collection) :
  counted st -> withinQuota (fst st) ->
  counted (run customers st requests)
  /\ withinQuota (fst (run customers st requests)).
Proof.
  unfold run. revert st.
  induction requests as [|r rest IH]; intros st Hc Hq; [split; assumption|].
  cbn [fold_left]. apply IH.
  - apply handle_counted. exact Hc.
  - apply handle_withinQuota; [exact (proj1 Hc) | exact Hq].
Qed.

(** X17. The free plan's quota holds: when user ids are distinct, the
    counters are exact and no free user's counter exceeds [maxInvoices], then
    after any sequence of create, update, delete and duplicate requests,
    handled one after the other, no free user owns more invoices than
    [maxInvoices]. *)
Theorem free_plan_never_exceeds_maxInvoices :
  forall (customers : Customers) (requests : list Request)
         (st : Users * Collection),
    NoDup (map user_id (fst st)) ->
    counted st ->
    (forall u, In u (fst st) -> plan u = free ->
               invoiceCount u <= maxInvoices u) ->
    forall u, In u (fst (run customers st requests)) -> plan u = free ->
      Z.of_nat (List.length
                  (ownedBy (user_id u) (snd (run customers st requests))))
      <= maxInvoices u.
Proof.
  intros customers requests st Hnd Hc Hq u Hu Hfree.
  destruct (run_invariants customers requests st Hc (conj Hnd Hq))
    as [[_ Hcount] [_ Hq']].
  rewrite <- (Hcount u Hu). apply Hq'; assumption.
Qed.

Lemma free_plan_never_exceeds_maxInvoices_witness :
  Z.of_nat (List.length
              (ownedBy (user_id (mkUser 1 free 1 1))
                 (snd (run [(7, 1)%nat] ([freeUser], []) twoPosts))))
  <= maxInvoices (mkUser 1 free 1 1).
Proof.
  apply (free_plan_never_exceeds_maxInvoices [(7, 1)%nat] twoPosts
           ([freeUser], [])).
  - cbn. constructor; [intros []|constructor].
  - split; [apply reachable_empty|]. intros u [<-|[]]. reflexivity.
  - intros u [<-|[]] _. cbn. lia.
  - vm_compute. left. reflexivity.
  - reflexivity.
Defined.

(** X18. The quota check stops a request before it touches anything: a free
    user whose counter has reached [maxInvoices] gets 403 for a create and
    for a duplicate request, and users and invoices stay as they were;
    update and delete requests of that user are never answered 403. *)
Theorem quota_reached_request_refused :
  forall (customers : Customers) (users : Users) (db : Collection) (u : User),
    User_findById users (user_id u) = Some u ->
    plan u = free ->
    maxInvoices u <= invoiceCount u ->
    (forall now body,
       handle customers (users, db) (PostInvoice (user_id u) now body)
       = ((users, db), 403%nat))
    /\ (forall now id,
       handle customers (users, db) (PostDuplicate (user_id u) now id)
       = ((users, db), 403%nat))
    /\ (forall now id body,
       snd (handle customers (users, db) (PutInvoice (user_id u) now id body))
       <> 403%nat)
    /\ (forall id,
       snd (handle customers (users, db) (DeleteInvoice (user_id u) id))
       <> 403%nat).
Proof.
  intros customers users db u Hf Hfree Hfull.
  assert (checkInvoiceLimit (Some u)
          = Respond 403
              "Invoice limit reached. Upgrade to Pro for unlimited invoices.")
    as Hlim.
  { unfold checkInvoiceLimit. rewrite Hfree.
    destruct (Z.leb_spec (maxInvoices u) (invoiceCount u)); [reflexivity|lia]. }
  repeat split.
  - intros now body. unfold handle. rewrite Hf, Hlim. reflexivity.
  - intros now id. unfold handle. rewrite Hf, Hlim. reflexivity.
  - intros now id body. unfold handle. rewrite Hf.
    destruct (updateInvoice db customers now (Some (user_id u)) id body)
      as [db' res] eqn:U. cbn [snd].
    destruct (updateInvoice_outcome _ _ _ _ _ _ _ _ U)
      as [(Hc & _)|(F & _)].
    + rewrite Hc. discriminate.
    + destruct F as [F|[F|[F|F]]]; rewrite F; discriminate.
  - intros id. unfold handle. rewrite Hf. unfold deleteInvoice.
    destruct (findOneAndDelete db id (user_id u)) as [db2 [d|]];
      cbn; discriminate.
Qed.

Lemma quota_reached_request_refused_witness :
  (forall now body,
     handle [] ([usedUpUser], []) (PostInvoice (user_id usedUpUser) now body)
     = (([usedUpUser], []), 403%nat))
  /\ (forall now id,
     handle [] ([usedUpUser], []) (PostDuplicate (user_id usedUpUser) now id)
     = (([usedUpUser], []), 403%nat))
  /\ (forall now id body,
     snd (handle [] ([usedUpUser], [])
            (PutInvoice (user_id usedUpUser) now id body))
     <> 403%nat)
  /\ (forall id,
     snd (handle [] ([usedUpUser], []) (DeleteInvoice (user_id usedUpUser) id))
     <> 403%nat).
Proof.
  apply (quota_reached_request_refused [] [usedUpUser] [] usedUpUser).
  - reflexivity.
  - reflexivity.
  - cbn. lia.
Defined.

(** ** The calculator's rounding *)

(** X21. The form's calculator and the server's agree: on the same items and
    rates, given or left out, the frontend's [calculateInvoiceTotals] returns
    what the backend's returns. *)
Theorem frontend_calculateInvoiceTotals_agrees :
  forall (items : list InvoiceItem) (taxRate discountRate : option Q),
    Frontend.calculateInvoiceTotals items taxRate discountRate
    = calculateInvoiceTotals items taxRate discountRate.
Proof.
  intros items taxRate discountRate.
  unfold calculateInvoiceTotals. rewrite calculateInvoiceTotals_run_eq.
  unfold Frontend.calculateInvoiceTotals.
  rewrite (reduce_readonly (fun sum item => (sum + quantity item * rate item)%Q)).
  reflexivity.
Qed.

(** X22. What is stored rounds to what the calculator says: for every
    document of a reachable collection, the calculator applied to the
    document's items and rates returns the stored subtotal, tax amount,
    discount amount and total, each rounded to two decimals. *)
Theorem stored_amounts_round_to_calculator :
  forall (db : Collection) (d : Invoice),
    reachable db -> In d db ->
    calculateInvoiceTotals (items d) (Some (taxRate d)) (Some (discountRate d))
    = Totals.mk (round2 (subtotal d)) (round2 (taxAmount d))
        (round2 (discountAmount d)) (round2 (total d)).
Proof.
  intros db d Hr Hin.
  destruct (reachable_normalised db Hr d Hin) as (_ & Hs & Ht & Hd & Htot).
  unfold calculateInvoiceTotals. rewrite calculateInvoiceTotals_run_eq.
  cbn [fst orDefault]. rewrite hookSubtotal_raw in Hs.
  unfold rawTotal, rawTaxAmount, rawDiscountAmount.
  rewrite Htot, Hd, Ht, Hs. reflexivity.
Qed.

Lemma stored_amounts_round_to_calculator_witness :
  calculateInvoiceTotals (items (savedDocument owner1First))
    (Some (taxRate (savedDocument owner1First)))
    (Some (discountRate (savedDocument owner1First)))
  = Totals.mk (round2 (subtotal (savedDocument owner1First)))
      (round2 (taxAmount (savedDocument owner1First)))
      (round2 (discountAmount (savedDocument owner1First)))
      (round2 (total (savedDocument owner1First))).
Proof.
  apply (stored_amounts_round_to_calculator (collectionOf owner1First)).
  - exact reachable_collectionOf_owner1First.
  - vm_compute. left. reflexivity.
Defined.

(** ** Frontend text utilities *)

Lemma substring_0_length (n : nat) (s : string) :
  String.length (substring 0 n s) = Nat.min n (String.length s).
Proof.
  revert s. induction n as [|n IH]; intros [|c s]; cbn; auto.
Qed.

Lemma substring_0_0 (s : string) : substring 0 0 s = "".
Proof. destruct s; reflexivity. Qed.

Lemma substring_0_prefix (n : nat) (s t : string) :
  (n <= String.length s)%nat ->
  substring 0 n (substring 0 n s ++ t) = substring 0 n s.
Proof.
  revert s. induction n as [|n IH]; intros s H;
    [rewrite !substring_0_0; reflexivity|].
  destruct s as [|c s]; cbn [String.length] in H; [lia|].
  cbn [substring append]. rewrite IH by lia. reflexivity.
Qed.

(** X23. [truncateText] is idempotent, and a truncated text has the length
    of the limit (or 0 for a negative limit) plus the three dots: applying
    it again with the same limit changes nothing, although a text one or
    two characters over the limit comes out longer than it went in. *)
Theorem truncateText_idempotent_and_length :
  forall (text : string) (maxLength : Z),
    Frontend.truncateText (Frontend.truncateText text maxLength) maxLength
    = Frontend.truncateText text maxLength
    /\ Z.of_nat (String.length (Frontend.truncateText text maxLength))
       = (if Z.of_nat (String.length text) <=? maxLength
          then Z.of_nat (String.length text)
          else Z.max maxLength 0 + 3).
Proof.
  intros text maxLength. unfold Frontend.truncateText at 2 3 4.
  destruct (Z.leb_spec (Z.of_nat (String.length text)) maxLength) as [Hle|Hgt].
  - split; [|reflexivity].
    unfold Frontend.truncateText.
    destruct (Z.leb_spec (Z.of_nat (String.length text)) maxLength);
      [reflexivity|lia].
  - assert (String.length (Frontend.substr0 text maxLength ++ "...")
            = (Z.to_nat maxLength + 3)%nat) as Hlen.
    { rewrite length_append. unfold Frontend.substr0.
      rewrite substring_0_length. cbn [String.length]. lia. }
    split; [|rewrite Hlen; lia].
    unfold Frontend.truncateText. rewrite Hlen.
    destruct (Z.leb_spec (Z.of_nat (Z.to_nat maxLength + 3)) maxLength); [lia|].
    unfold Frontend.substr0. rewrite substring_0_prefix by lia. reflexivity.
Qed.

Lemma removeNonDigits_allDigits (s : string) :
  allDigits s = true -> Frontend.removeNonDigits s = s.
Proof.
  induction s as [|c s IH]; cbn [allDigits Frontend.removeNonDigits];
    [reflexivity|].
  intros H. apply andb_true_iff in H. destruct H as [Hc Hs].
  rewrite Hc, IH by assumption. reflexivity.
Qed.

Lemma removeNonDigits_app (s t : string) :
  Frontend.removeNonDigits (s ++ t)
  = Frontend.removeNonDigits s ++ Frontend.removeNonDigits t.
Proof.
  induction s as [|c s IH]; cbn [append Frontend.removeNonDigits];
    [reflexivity|].
  rewrite IH. destruct (isDigit c); reflexivity.
Qed.

Lemma allDigits_substring (n m : nat) (s : string) :
  allDigits s = true -> allDigits (substring n m s) = true.
Proof.
  revert n m. induction s as [|c s IH]; intros n m H.
  - destruct n, m; reflexivity.
  - cbn [allDigits] in H. apply andb_true_iff in H. destruct H as [Hc Hs].
    destruct n as [|n]; [destruct m as [|m]|]; cbn [substring];
      [reflexivity| |apply IH; assumption].
    cbn [allDigits]. rewrite Hc. apply IH. assumption.
Qed.

Lemma substring_groups (s : string) :
  String.length s = 10%nat ->
  substring 0 3 s ++ substring 3 3 s ++ substring 6 4 s = s.
Proof.
  intros H.
  do 10 (destruct s as [|? s]; [discriminate H|]).
  destruct s; [reflexivity|discriminate H].
Qed.

Lemma formatPhoneNumber_cleaned (phone : string) :
  Frontend.removeNonDigits (Frontend.formatPhoneNumber phone)
  = Frontend.removeNonDigits phone.
Proof.
  unfold Frontend.formatPhoneNumber, Frontend.matchPhone.
  set (c := Frontend.removeNonDigits phone).
  destruct ((String.length c =? 10)%nat && allDigits c)%bool eqn:M;
    [|reflexivity].
  apply andb_true_iff in M. destruct M as [Hlen Hdig].
  apply Nat.eqb_eq in Hlen.
  rewrite !removeNonDigits_app.
  change (Frontend.removeNonDigits "(") with "".
  change (Frontend.removeNonDigits ") ") with "".
  change (Frontend.removeNonDigits "-") with "".
  rewrite (removeNonDigits_allDigits (substring 0 3 c)),
          (removeNonDigits_allDigits (substring 3 3 c)),
          (removeNonDigits_allDigits (substring 6 4 c))
    by (apply allDigits_substring; exact Hdig).
  cbn [append]. apply substring_groups. exact Hlen.
Qed.

(** X24. [formatPhoneNumber] keeps the digits of its input in their order
    and is idempotent: formatting a formatted number changes nothing. *)
Theorem formatPhoneNumber_keeps_digits_idempotent :
  forall phone : string,
    Frontend.removeNonDigits (Frontend.formatPhoneNumber phone)
    = Frontend.removeNonDigits phone
    /\ Frontend.formatPhoneNumber (Frontend.formatPhoneNumber phone)
       = Frontend.formatPhoneNumber phone.
Proof.
  intros phone. split; [apply formatPhoneNumber_cleaned|].
  unfold Frontend.formatPhoneNumber at 1.
  rewrite formatPhoneNumber_cleaned.
  unfold Frontend.formatPhoneNumber.
  destruct (Frontend.matchPhone (Frontend.removeNonDigits phone))
    as [[[g1 g2] g3]|]; reflexivity.
Qed.
